(** * Visual bookmarks extension: the bookmark manager

    A shallow embedding of [src/js/bookmarks.js] (class [BookmarkManager]):
    the flattening of the host bookmark tree into a bookmark list and a
    folder list, and the ordered favorites list with its four mutators.

    The manager object is a record of its three array fields, threaded
    through every method; the key-value store is the log of the payloads
    handed to [chrome.storage.local.set].

    Around it: the getters of the manager and the favorites grid of
    [src/js/ui.js], the reading list manager with its host, and the
    methods of [src/script.js] that add and delete a bookmark. Calls to
    the host are arguments that say how the call settled. *)

From stdpp Require Import base list strings sorting.
From Stdlib Require Import ZArith Lia OrderedTypeEx.

Open Scope string_scope.
Open Scope list_scope.

(** ** Data model *)

(** A node of the host tree, [chrome.bookmarks.BookmarkTreeNode]. The two
    fields the code tests for presence, [url] and [children], are
    optional; the code never assumes that exactly one of them is set. *)
#[warnings="-register-all"]
Inductive BookmarkNode : Type :=
  Node {
    node_id : string;
    node_title : string;
    node_url : option string;
    node_parentId : option string;
    node_children : option (list BookmarkNode)
  }.

(** The object literal [{id, title, url, parentId}] pushed for a bookmark. *)
Record FlatBookmark : Type :=
  mkBookmark {
    bm_id : string;
    bm_title : string;
    bm_url : string;
    bm_parentId : option string
  }.

(** The object literal [{id, title, children, parentId}] pushed for a folder. *)
Record FlatFolder : Type :=
  mkFolder {
    folder_id : string;
    folder_title : string;
    folder_children : list FlatBookmark;
    folder_parentId : option string
  }.

(** The fields of [BookmarkManager], and the writes it issued to
    [chrome.storage.local] under the key [favoriteBookmarks], oldest
    first. *)
Record Manager : Type :=
  mkManager {
    chromeBookmarks : list FlatBookmark;
    folders : list FlatFolder;
    favorites : list FlatBookmark;
    writes : list (list FlatBookmark)
  }.

#[global] Instance FlatBookmark_eq_dec : EqDecision FlatBookmark.
Proof. solve_decision. Defined.

#[global] Instance FlatFolder_eq_dec : EqDecision FlatFolder.
Proof. solve_decision. Defined.

(** The constructor: three empty arrays, nothing written yet. *)
Definition constructor : Manager := mkManager [] [] [] [].

Definition set_chromeBookmarks (l : list FlatBookmark) (m : Manager) : Manager :=
  mkManager l (folders m) (favorites m) (writes m).

Definition set_folders (l : list FlatFolder) (m : Manager) : Manager :=
  mkManager (chromeBookmarks m) l (favorites m) (writes m).

Definition set_favorites (l : list FlatBookmark) (m : Manager) : Manager :=
  mkManager (chromeBookmarks m) (folders m) l (writes m).

(** ** JavaScript truthiness of the tested fields *)

(** A string is truthy unless it is empty. *)
Definition truthy (s : string) : bool :=
  match s with
  | EmptyString => false
  | String _ _ => true
  end.

(** [node.url] is truthy when the field is present and not empty. *)
Definition truthy_url (u : option string) : bool :=
  match u with
  | Some s => truthy s
  | None => false
  end.

(** [node.children] is an array, truthy even when it is empty. *)
Definition has_children (c : option (list BookmarkNode)) : bool :=
  match c with
  | Some _ => true
  | None => false
  end.

(** [['0', '1', '2'].includes(id)] *)
Definition reserved (id : string) : bool :=
  bool_decide (id ∈ ["0"; "1"; "2"]).

(** The value of [node.url] where it has been tested truthy. *)
Definition url_value (u : option string) : string := default "" u.

(** ** The tree flattener *)

(** [collectBookmarksFromFolder], one iteration of its [forEach]: the test
    on [child.url] comes first, [child.children] is looked at only when
    the url is falsy. *)
Fixpoint collectChild (child : BookmarkNode) (bookmarksArray : list FlatBookmark)
  : list FlatBookmark :=
  match child with
  | Node i t u p c =>
      if truthy_url u then
        bookmarksArray ++ [mkBookmark i t (url_value u) p]
      else
        match c with
        | Some cs =>
            (fix forEach (l : list BookmarkNode) (acc : list FlatBookmark) :=
               match l with
               | [] => acc
               | n :: l' => forEach l' (collectChild n acc)
               end) cs bookmarksArray
        | None => bookmarksArray
        end
  end.

Definition collectBookmarksFromFolder (children : list BookmarkNode)
  (bookmarksArray : list FlatBookmark) : list FlatBookmark :=
  foldl (fun acc child => collectChild child acc) bookmarksArray children.

(** The folder object pushed by [traverseBookmarksTree]. *)
Definition folderEntry (i t : string) (p : option string) (cs : list BookmarkNode)
  : FlatFolder :=
  mkFolder i t (collectBookmarksFromFolder cs []) p.

(** [traverseBookmarksTree], one iteration of its [forEach]: here the test
    on [node.children] comes first. *)
Fixpoint traverseNode (node : BookmarkNode) (m : Manager) : Manager :=
  match node with
  | Node i t u p c =>
      match c with
      | Some cs =>
          let m1 :=
            if truthy t && negb (reserved i)
            then set_folders (folders m ++ [folderEntry i t p cs]) m
            else m in
          (fix forEach (l : list BookmarkNode) (m : Manager) :=
             match l with
             | [] => m
             | n :: l' => forEach l' (traverseNode n m)
             end) cs m1
      | None =>
          if truthy_url u
          then set_chromeBookmarks
                 (chromeBookmarks m ++ [mkBookmark i t (url_value u) p]) m
          else m
      end
  end.

Definition traverseBookmarksTree (nodes : list BookmarkNode) (m : Manager) : Manager :=
  foldl (fun m node => traverseNode node m) m nodes.

(** Every node of a forest, parents before children, siblings in order:
    the depth-first pre-order the two traversals follow. *)
Fixpoint preorderNode (node : BookmarkNode) : list BookmarkNode :=
  node ::
  match node_children node with
  | Some cs => flat_map preorderNode cs
  | None => []
  end.

Definition preorder (nodes : list BookmarkNode) : list BookmarkNode :=
  flat_map preorderNode nodes.

(** The nodes strictly below a node. *)
Definition descendants (node : BookmarkNode) : list BookmarkNode :=
  preorder (default [] (node_children node)).

(** A leaf: a node with a url and no children. *)
Definition is_leaf (node : BookmarkNode) : bool :=
  truthy_url (node_url node) && negb (has_children (node_children node)).

(** A folder: a node that exposes a children sequence. *)
Definition is_folder (node : BookmarkNode) : bool :=
  has_children (node_children node).

(** A folder that is listed: titled, and not one of the three roots. *)
Definition is_listed_folder (node : BookmarkNode) : bool :=
  is_folder node && truthy (node_title node) && negb (reserved (node_id node)).

(** The host never sets [url] on a folder; a node that carries both a url
    and children is not a node of a host tree. *)
Definition no_url_on_folder (node : BookmarkNode) : bool :=
  negb (truthy_url (node_url node) && has_children (node_children node)).

Definition toFlatBookmark (node : BookmarkNode) : FlatBookmark :=
  mkBookmark (node_id node) (node_title node) (url_value (node_url node))
    (node_parentId node).

(** The leaves of a forest, flattened, in pre-order. *)
Definition leaves (nodes : list BookmarkNode) : list FlatBookmark :=
  toFlatBookmark <$> filter is_leaf (preorder nodes).

(** The entry the traversal pushes for a folder node. *)
Definition pushedFolder (node : BookmarkNode) : FlatFolder :=
  folderEntry (node_id node) (node_title node) (node_parentId node)
    (default [] (node_children node)).

(** The entries pushed for the listed folders of a forest, in pre-order. *)
Definition listedFolders (nodes : list BookmarkNode) : list FlatFolder :=
  pushedFolder <$> filter is_listed_folder (preorder nodes).

(** What a traversal of a forest comes to: its leaves appended to the
    bookmark list, its listed folders to the folder list. *)
Definition traversed (nodes : list BookmarkNode) (m : Manager) : Manager :=
  mkManager (chromeBookmarks m ++ leaves nodes) (folders m ++ listedFolders nodes)
    (favorites m) (writes m).

(** The state [loadChromeBookmarks] traverses from: both lists reset. *)
Definition resetLists (m : Manager) : Manager :=
  set_folders [] (set_chromeBookmarks [] m).

(** ** Sorting the folder list *)

Section Sorting.

(** [String.prototype.localeCompare] is the host's collation; it is a
    parameter of the development. *)
Variable localeCompare : string -> string -> Z.

(** The comparator [(a, b) => a.title.localeCompare(b.title)]. *)
Definition compareFolders (a b : FlatFolder) : Z :=
  localeCompare (folder_title a) (folder_title b).

(** [Array.prototype.sort] with a comparator. The built-in is stable
    (ECMAScript 2019); it is modelled as the stable insertion sort: an
    element goes in front of the first one it does not compare greater
    than. Under a consistent comparator every stable sort gives this
    result. *)
Fixpoint sortInsert {A : Type} (cmp : A -> A -> Z) (x : A) (l : list A) : list A :=
  match l with
  | [] => [x]
  | y :: l' =>
      if (cmp x y <=? 0)%Z then x :: y :: l' else y :: sortInsert cmp x l'
  end.

Fixpoint arraySort {A : Type} (cmp : A -> A -> Z) (l : list A) : list A :=
  match l with
  | [] => []
  | x :: l' => sortInsert cmp x (arraySort cmp l')
  end.

(** [loadChromeBookmarks]: [None] is a rejected [getTree], caught before
    anything was reset. *)
Definition loadChromeBookmarks (bookmarkTree : option (list BookmarkNode))
  (m : Manager) : Manager :=
  match bookmarkTree with
  | None => m
  | Some tree =>
      let m1 := traverseBookmarksTree tree (resetLists m) in
      set_folders (arraySort compareFolders (folders m1)) m1
  end.

End Sorting.

(** Earlier-or-equal in the collation. *)
Definition titleLe (localeCompare : string -> string -> Z) (a b : FlatFolder) : Prop :=
  (compareFolders localeCompare a b <= 0)%Z.

(** One collation to run the development on: by character code. *)
Definition codeCompare (a b : string) : Z :=
  match String.compare a b with
  | Lt => (-1)%Z
  | Eq => 0%Z
  | Gt => 1%Z
  end.

(** ** Sample trees *)

Definition bookmarkA : BookmarkNode :=
  Node "5" "A" (Some "https://a.example/") (Some "1") None.

Definition bookmarkB : BookmarkNode :=
  Node "7" "B" (Some "https://b.example/") (Some "6") None.

Definition bookmarkC : BookmarkNode :=
  Node "9" "C" (Some "https://c.example/") (Some "8") None.

Definition workFolder : BookmarkNode :=
  Node "6" "Work" None (Some "1") (Some [bookmarkB]).

Definition bookmarksBar : BookmarkNode :=
  Node "1" "Bookmarks Bar" None (Some "0") (Some [bookmarkA; workFolder]).

(** A second folder called Work, and one that sorts before both. *)
Definition otherWork : BookmarkNode :=
  Node "8" "Work" None (Some "2") (Some [bookmarkC]).

Definition archive : BookmarkNode :=
  Node "10" "Archive" None (Some "2") (Some []).

Definition otherBookmarks : BookmarkNode :=
  Node "2" "Other Bookmarks" None (Some "0") (Some [otherWork; archive]).

Definition hostRoot : BookmarkNode :=
  Node "0" "" None None (Some [bookmarksBar; otherBookmarks]).

(** A node with both a url and children, below a listed folder. *)
Definition nestedLeaf : BookmarkNode :=
  Node "22" "Inner" (Some "https://inner.example/") (Some "21") None.

Definition linkWithChildren : BookmarkNode :=
  Node "21" "Link" (Some "https://link.example/") (Some "20") (Some [nestedLeaf]).

Definition outerFolder : BookmarkNode :=
  Node "20" "Outer" None (Some "1") (Some [linkWithChildren]).

(** A folder inside a folder, with bookmarks before, in and after it. *)
Definition paperOne : BookmarkNode :=
  Node "43" "One" (Some "https://one.example/") (Some "42") None.

Definition paperTwo : BookmarkNode :=
  Node "44" "Two" (Some "https://two.example/") (Some "42") None.

Definition papers : BookmarkNode :=
  Node "42" "Papers" None (Some "40") (Some [paperOne; paperTwo]).

Definition news : BookmarkNode :=
  Node "41" "News" (Some "https://news.example/") (Some "40") None.

Definition blog : BookmarkNode :=
  Node "45" "Blog" (Some "https://blog.example/") (Some "40") None.

Definition reading : BookmarkNode :=
  Node "40" "Reading" None (Some "1") (Some [news; papers; blog]).

(** ** The favorites list *)

(** [array.findIndex(b => b.id === id)], together with the element found
    there ([None] stands for -1). *)
Definition findById (id : string) (l : list FlatBookmark) : option (nat * FlatBookmark) :=
  list_find (fun b => bm_id b = id) l.

(** [array.splice(i, 1)]: what is left in the array. *)
Definition spliceOut (i : nat) (l : list FlatBookmark) : list FlatBookmark :=
  delete i l.

(** [array.splice(i, 0, x)]; a start beyond the end is clamped to it. *)
Definition spliceIn (i : nat) (x : FlatBookmark) (l : list FlatBookmark)
  : list FlatBookmark :=
  take i l ++ x :: drop i l.

(** [saveFavorites]: the whole array is handed to the store. *)
Definition saveFavorites (m : Manager) : Manager :=
  mkManager (chromeBookmarks m) (folders m) (favorites m)
    (writes m ++ [favorites m]).

Definition toggleFavorite (bookmarkId : string) (m : Manager) : Manager :=
  match findById bookmarkId (chromeBookmarks m) with
  | None => m
  | Some (_, bookmark) =>
      let m1 :=
        match findById bookmarkId (favorites m) with
        | Some (favoriteIndex, _) =>
            set_favorites (spliceOut favoriteIndex (favorites m)) m
        | None => set_favorites (favorites m ++ [bookmark]) m
        end in
      saveFavorites m1
  end.

Definition addToFavorites (bookmark : FlatBookmark) (m : Manager) : Manager :=
  match findById (bm_id bookmark) (favorites m) with
  | Some _ => m
  | None => saveFavorites (set_favorites (favorites m ++ [bookmark]) m)
  end.

Definition removeFromFavorites (bookmarkId : string) (m : Manager) : Manager :=
  match findById bookmarkId (favorites m) with
  | Some (index, _) => saveFavorites (set_favorites (spliceOut index (favorites m)) m)
  | None => m
  end.

(** [reorderFavorite]: both indices are taken before anything is removed;
    [draggedItem] is the element [splice] hands back, the one found at
    [draggedIndex]. *)
Definition reorderFavorite (draggedId targetId : string) (m : Manager) : Manager :=
  match findById draggedId (favorites m), findById targetId (favorites m) with
  | Some (draggedIndex, draggedItem), Some (targetIndex, _) =>
      let removed := spliceOut draggedIndex (favorites m) in
      saveFavorites (set_favorites (spliceIn targetIndex draggedItem removed) m)
  | _, _ => m
  end.

Definition isFavorite (bookmarkId : string) (m : Manager) : bool :=
  bool_decide (Exists (fun fav => bm_id fav = bookmarkId) (favorites m)).

(** The four mutators of the favorites list. *)
Inductive FavoritesOp : Type :=
  | Toggle (bookmarkId : string)
  | Add (bookmark : FlatBookmark)
  | Remove (bookmarkId : string)
  | Reorder (draggedId targetId : string).

Definition runOp (op : FavoritesOp) (m : Manager) : Manager :=
  match op with
  | Toggle id => toggleFavorite id m
  | Add b => addToFavorites b m
  | Remove id => removeFromFavorites id m
  | Reorder d t => reorderFavorite d t m
  end.

(** The test each mutator makes before it touches the array: the id is
    known (toggle), no favorite has the id (add), a favorite has it
    (remove), both ids are favorites (reorder). *)
Definition passesGuard (op : FavoritesOp) (m : Manager) : bool :=
  match op with
  | Toggle id => bool_decide (is_Some (findById id (chromeBookmarks m)))
  | Add b => bool_decide (findById (bm_id b) (favorites m) = None)
  | Remove id => bool_decide (is_Some (findById id (favorites m)))
  | Reorder d t =>
      bool_decide (is_Some (findById d (favorites m)))
      && bool_decide (is_Some (findById t (favorites m)))
  end.

(** The ids of a list of bookmarks, in order. *)
Definition ids (l : list FlatBookmark) : list string := bm_id <$> l.

(** How many entries of a list have the id. *)
Definition occurrences (id : string) (l : list FlatBookmark) : nat :=
  length (filter (fun b => bm_id b = id) l).

(** The reordering rule in the words of the design note: the dragged
    entry is removed, then inserted at the index the target entry
    occupies in what is left. Undefined when the target is not there
    any more. *)
Definition reorderAtCurrentTargetIndex (draggedId targetId : string)
  (l : list FlatBookmark) : option (list FlatBookmark) :=
  match findById draggedId l with
  | Some (draggedIndex, draggedItem) =>
      let removed := spliceOut draggedIndex l in
      match findById targetId removed with
      | Some (targetIndexNow, _) => Some (spliceIn targetIndexNow draggedItem removed)
      | None => None
      end
  | None => None
  end.

(** ** Loading the favorites *)

(** How a call to the host settles: with a value, or rejected. *)
Inductive Settled (A : Type) : Type :=
  | Resolved (a : A)
  | Rejected.

Arguments Resolved {A} a.
Arguments Rejected {A}.

(** [loadFavorites]: [result.favoriteBookmarks || []], where the key may
    be absent; a rejected [get] is caught and leaves the array as it is. *)
Definition loadFavorites (result : Settled (option (list FlatBookmark)))
  (m : Manager) : Manager :=
  match result with
  | Resolved favoriteBookmarks => set_favorites (default [] favoriteBookmarks) m
  | Rejected => m
  end.

(** What the store holds under [favoriteBookmarks] once the manager's
    writes have reached it: the last payload, or what was there before. *)
Definition storeAfter (before : option (list FlatBookmark)) (m : Manager)
  : option (list FlatBookmark) :=
  match last (writes m) with
  | Some payload => Some payload
  | None => before
  end.

(** ** The getters *)

(** [s.includes(t)]: [t] occurs in [s] as a run of consecutive units. *)
Fixpoint includes (s t : string) : bool :=
  String.prefix t s ||
  match s with
  | EmptyString => false
  | String _ s' => includes s' t
  end.

Section Getters.

(** [String.prototype.trim] and [String.prototype.toLowerCase] are the
    host's; they are parameters. *)
Variable trim : string -> string.
Variable toLowerCase : string -> string.

(** The test of [filterBookmarks] on one bookmark. *)
Definition matchesQuery (lowerQuery : string) (bookmark : FlatBookmark) : bool :=
  includes (toLowerCase (bm_title bookmark)) lowerQuery
  || includes (toLowerCase (bm_url bookmark)) lowerQuery.

(** [filterBookmarks]: the trimmed query decides whether to filter, the
    untrimmed one is what is searched for. *)
Definition filterBookmarks (bookmarks : list FlatBookmark) (query : string)
  : list FlatBookmark :=
  if negb (truthy (trim query)) then bookmarks
  else
    let lowerQuery := toLowerCase query in
    filter (fun bookmark => matchesQuery lowerQuery bookmark) bookmarks.

Definition getFavorites (query : string) (m : Manager) : list FlatBookmark :=
  filterBookmarks (favorites m) query.

Definition getAll (query : string) (m : Manager) : list FlatBookmark :=
  filterBookmarks (chromeBookmarks m) query.

Definition getFolders (query : string) (m : Manager) : list FlatFolder :=
  if negb (truthy (trim query)) then folders m
  else
    filter (fun folder =>
              includes (toLowerCase (folder_title folder)) (toLowerCase query))
      (folders m).

(** [this.folders.find(f => f.id === folderId)]; [None] is [undefined]. *)
Definition getFolder (folderId : string) (m : Manager) : option FlatFolder :=
  snd <$> list_find (fun f => folder_id f = folderId) (folders m).

Definition getFolderBookmarks (folderId query : string) (m : Manager)
  : list FlatBookmark :=
  match getFolder folderId m with
  | None => []
  | Some folder => filterBookmarks (folder_children folder) query
  end.

End Getters.

(** One [trim] to run the getters on: spaces off both ends. *)
Fixpoint trimStart (s : string) : string :=
  match s with
  | String c s' => if Ascii.eqb c Ascii.Space then trimStart s' else s
  | EmptyString => EmptyString
  end.

Fixpoint trimEnd (s : string) : string :=
  match s with
  | EmptyString => EmptyString
  | String c s' =>
      match trimEnd s' with
      | EmptyString => if Ascii.eqb c Ascii.Space then EmptyString else String c EmptyString
      | rest => String c rest
      end
  end.

Definition trimSpaces (s : string) : string := trimEnd (trimStart s).

(** One [toLowerCase] to run the getters on: the letters A to Z. *)
Definition lowerLetter (c : Ascii.ascii) : Ascii.ascii :=
  let n := Ascii.nat_of_ascii c in
  if Nat.leb 65 n && Nat.leb n 90 then Ascii.ascii_of_nat (n + 32) else c.

Fixpoint lowerLetters (s : string) : string :=
  match s with
  | EmptyString => EmptyString
  | String c s' => String (lowerLetter c) (lowerLetters s')
  end.

(** ** A session *)

(** What happens to a manager between two loads of the favorites: a
    mutator runs, or the bookmark lists are refreshed. *)
Inductive Event : Type :=
  | Mutate (op : FavoritesOp)
  | Refresh (bookmarkTree : option (list BookmarkNode)).

Definition runEvent (localeCompare : string -> string -> Z) (m : Manager)
  (e : Event) : Manager :=
  match e with
  | Mutate op => runOp op m
  | Refresh bookmarkTree => loadChromeBookmarks localeCompare bookmarkTree m
  end.

Definition runEvents (localeCompare : string -> string -> Z) (events : list Event)
  (m : Manager) : Manager :=
  foldl (runEvent localeCompare) m events.

(** ** Rendering a grid of bookmarks *)

(** What [renderBookmarksGrid] puts into a grid that exists: the empty
    state with its message, or one card per bookmark, each with the
    bookmark and the star it is created with. *)
Inductive GridContent : Type :=
  | EmptyState (message : string)
  | Cards (cards : list (FlatBookmark * bool)).

Definition quote : string := String (Ascii.ascii_of_nat 34) EmptyString.

Definition renderBookmarksGrid (bookmarks : list FlatBookmark) (query : string)
  (emptyMessage : string) (m : Manager) : GridContent :=
  match bookmarks with
  | [] =>
      EmptyState (if truthy query
                  then String.append "No bookmarks matching "
                         (String.append quote (String.append query quote))
                  else emptyMessage)
  | _ => Cards ((fun bookmark => (bookmark, isFavorite (bm_id bookmark) m)) <$> bookmarks)
  end.

Definition displayFavorites (trim toLowerCase : string -> string) (query : string)
  (m : Manager) : GridContent :=
  renderBookmarksGrid (getFavorites trim toLowerCase query m) query
    "No favorites yet! Star some bookmarks to see them here." m.

Definition displayAllBookmarks (trim toLowerCase : string -> string) (query : string)
  (m : Manager) : GridContent :=
  renderBookmarksGrid (getAll trim toLowerCase query m) query
    "No bookmarks found. Add some bookmarks to get started!" m.

(** ** Deleting a bookmark *)

(** How a method that may rethrow ends, and the manager it leaves. *)
Inductive Outcome : Type :=
  | Returned (m : Manager)
  | Threw (m : Manager).

Definition managerOf (o : Outcome) : Manager :=
  match o with
  | Returned m => m
  | Threw m => m
  end.

(** [BookmarkManager.delete]: [removed] is whether
    [chrome.bookmarks.remove(id)] resolved, [bookmarkTree] what the
    [getTree] of the refresh settles with. A rejected removal is logged
    and rethrown before any refresh. *)
Definition BookmarkManager_delete (localeCompare : string -> string -> Z) (removed : bool)
  (bookmarkTree : option (list BookmarkNode)) (m : Manager) : Outcome :=
  if removed then Returned (loadChromeBookmarks localeCompare bookmarkTree m)
  else Threw m.

(** [VisualBookmarksApp.deleteBookmark], as far as the manager goes: the
    favorite goes only after the host removed the bookmark. *)
Definition deleteBookmark (localeCompare : string -> string -> Z) (removed : bool)
  (bookmarkTree : option (list BookmarkNode)) (id : string) (m : Manager)
  : Outcome :=
  match BookmarkManager_delete localeCompare removed bookmarkTree m with
  | Returned m' => Returned (removeFromFavorites id m')
  | Threw m' => Threw m'
  end.

(** ** The reading list manager *)

Module ReadingList.

(** An element of [this.items]. Items mapped from the host's reading list
    carry [hasBeenRead]; the ones the manager pushes itself do not. *)
Record Item : Type :=
  mkItem {
    item_id : string;
    item_title : string;
    item_url : string;
    item_hasBeenRead : option bool;
    item_dateAdded : Z
  }.

(** An entry as [chrome.readingList.query] returns it. *)
Record Entry : Type :=
  mkEntry {
    entry_url : string;
    entry_title : string;
    entry_hasBeenRead : bool;
    entry_creationTime : Z
  }.

#[global] Instance Item_eq_dec : EqDecision Item.
Proof. solve_decision. Defined.

(** The manager's two fields. *)
Record Manager : Type :=
  mkManager {
    items : list Item;
    usesChromeAPI : bool
  }.

Definition constructor : Manager := mkManager [] false.

Section Host.

(** The host's reading list, when the browser has one: its state and its
    three calls, each of which may reject. They are parameters. *)
Variable Api : Type.
Variable query : Api -> Settled (list Entry).
Variable addEntry : string -> string -> Api -> Settled Api.
Variable removeEntry : string -> Api -> Settled Api.

(** The host: [chrome.readingList], absent in browsers without it, and
    what [chrome.storage.local] has under [readingList]. A store that is
    [Rejected] rejects every call; one that is [Resolved] holds the last
    value set, the key being absent at first. *)
Record Host : Type :=
  mkHost {
    readingList : option Api;
    storage : Settled (option (list Item))
  }.

(** The manager in its host. *)
Record World : Type :=
  mkWorld {
    host : Host;
    manager : Manager
  }.

(** How an [async] method ends, and the world it leaves. *)
Inductive Outcome : Type :=
  | Returned (w : World)
  | Threw (w : World).

Definition worldOf (o : Outcome) : World :=
  match o with
  | Returned w => w
  | Threw w => w
  end.

(** The item [load] maps a host entry to. *)
Definition itemOfEntry (e : Entry) : Item :=
  mkItem (entry_url e) (entry_title e) (entry_url e)
    (Some (entry_hasBeenRead e)) (entry_creationTime e).

(** The fallback of [load]: [result.readingList || []] from the store. A
    store that rejects makes [load] throw, from the [else] branch through
    the unguarded second [get] of the [catch] block as well. *)
Definition loadFromStorage (w : World) : Outcome :=
  match storage (host w) with
  | Resolved stored => Returned (mkWorld (host w) (mkManager (default [] stored) false))
  | Rejected => Threw w
  end.

Definition load (w : World) : Outcome :=
  match readingList (host w) with
  | Some api =>
      match query api with
      | Resolved entries =>
          Returned (mkWorld (host w) (mkManager (itemOfEntry <$> entries) true))
      | Rejected => loadFromStorage w
      end
  | None => loadFromStorage w
  end.

(** [save]: only without the host's reading list in use; a rejected
    [set] is logged and swallowed. *)
Definition save (w : World) : World :=
  if usesChromeAPI (manager w) then w
  else
    match storage (host w) with
    | Resolved _ =>
        mkWorld (mkHost (readingList (host w)) (Resolved (Some (items (manager w)))))
          (manager w)
    | Rejected => w
    end.

(** [this.items.some(item => item.url === url)] *)
Definition exists_ (url : string) (m : Manager) : bool :=
  bool_decide (Exists (fun item => item_url item = url) (items m)).

(** [add]; [now] is what [Date.now()] returns. Whatever was done before a
    rejection stays done when the error is rethrown. *)
Definition add (now : Z) (bookmark : FlatBookmark) (w : World) : Outcome :=
  match (if usesChromeAPI (manager w) then readingList (host w) else None) with
  | Some api =>
      match addEntry (bm_title bookmark) (bm_url bookmark) api with
      | Resolved api' => load (mkWorld (mkHost (Some api') (storage (host w))) (manager w))
      | Rejected => Threw w
      end
  | None =>
      if exists_ (bm_url bookmark) (manager w) then load w
      else
        let pushed :=
          mkManager
            (items (manager w)
             ++ [mkItem (bm_url bookmark) (bm_title bookmark) (bm_url bookmark) None now])
            (usesChromeAPI (manager w)) in
        load (save (mkWorld (host w) pushed))
  end.

Definition remove (url : string) (w : World) : Outcome :=
  match (if usesChromeAPI (manager w) then readingList (host w) else None) with
  | Some api =>
      match removeEntry url api with
      | Resolved api' => load (mkWorld (mkHost (Some api') (storage (host w))) (manager w))
      | Rejected => Threw w
      end
  | None =>
      let filtered :=
        mkManager (filter (fun item => item_url item <> url) (items (manager w)))
          (usesChromeAPI (manager w)) in
      load (save (mkWorld (host w) filtered))
  end.

(** The urls of the items, in order. *)
Definition urls (m : Manager) : list string := item_url <$> items m.

(** A manager that loaded from a working store in a browser without a
    reading list of its own: its items are what the store holds under
    the key, or none where the key is absent. *)
Definition onStore (w : World) : Prop :=
  readingList (host w) = None
  /\ usesChromeAPI (manager w) = false
  /\ exists stored,
       storage (host w) = Resolved stored
       /\ items (manager w) = default [] stored.

End Host.

Arguments mkHost {Api} readingList storage.
Arguments readingList {Api} h.
Arguments storage {Api} h.
Arguments mkWorld {Api} host manager.
Arguments host {Api} w.
Arguments manager {Api} w.
Arguments Returned {Api} w.
Arguments Threw {Api} w.
Arguments worldOf {Api} o.
Arguments loadFromStorage {Api} w.
Arguments load {Api} query w.
Arguments save {Api} w.
Arguments add {Api} query addEntry now bookmark w.
Arguments remove {Api} query removeEntry url w.
Arguments onStore {Api} w.

End ReadingList.

(** ** Adding a bookmark *)

(** [BookmarkManager.create]: [created] is how [chrome.bookmarks.create]
    settles, [bookmarkTree] how the [getTree] of the refresh does. The
    node the host made is returned; a rejected creation is logged and
    rethrown before any refresh. *)
Definition create (localeCompare : string -> string -> Z)
  (created : Settled FlatBookmark) (bookmarkTree : option (list BookmarkNode))
  (m : Manager) : Settled FlatBookmark * Manager :=
  match created with
  | Resolved bookmark =>
      (Resolved bookmark, loadChromeBookmarks localeCompare bookmarkTree m)
  | Rejected => (Rejected, m)
  end.

(** The two managers of [VisualBookmarksApp] that hold data. *)
Record App (Api : Type) : Type :=
  mkApp {
    bookmarks : Manager;
    readingList : ReadingList.World Api
  }.

Arguments mkApp {Api} bookmarks readingList.
Arguments bookmarks {Api} a.
Arguments readingList {Api} a.

Inductive AppOutcome (Api : Type) : Type :=
  | AppReturned (a : App Api)
  | AppThrew (a : App Api).

Arguments AppReturned {Api} a.
Arguments AppThrew {Api} a.

Definition appOf {Api : Type} (o : AppOutcome Api) : App Api :=
  match o with
  | AppReturned a => a
  | AppThrew a => a
  end.

(** [VisualBookmarksApp.addBookmark], as far as the two managers go: the
    bookmark is created, then starred when [data.isFavorite], then put on
    the reading list when [data.addToReading]; an error at any step is
    rethrown with the earlier steps done. *)
Definition addBookmark {Api : Type}
  (query : Api -> Settled (list ReadingList.Entry))
  (addEntry : string -> string -> Api -> Settled Api)
  (localeCompare : string -> string -> Z)
  (created : Settled FlatBookmark) (bookmarkTree : option (list BookmarkNode))
  (now : Z) (isFavorite addToReading : bool) (a : App Api) : AppOutcome Api :=
  match create localeCompare created bookmarkTree (bookmarks a) with
  | (Rejected, m) => AppThrew (mkApp m (readingList a))
  | (Resolved bookmark, m) =>
      let m1 := if isFavorite then addToFavorites bookmark m else m in
      if addToReading then
        match ReadingList.add query addEntry now bookmark (readingList a) with
        | ReadingList.Returned w => AppReturned (mkApp m1 w)
        | ReadingList.Threw w => AppThrew (mkApp m1 w)
        end
      else AppReturned (mkApp m1 (readingList a))
  end.

(** ** A sample host reading list *)

(** A host list to run the reading list manager on: entries in order of
    arrival, a url taken once, an unknown url refused on removal. *)
Definition sampleQuery (api : list ReadingList.Entry) : Settled (list ReadingList.Entry) :=
  Resolved api.

Definition sampleAddEntry (title url : string) (api : list ReadingList.Entry)
  : Settled (list ReadingList.Entry) :=
  if bool_decide (url ∈ ReadingList.entry_url <$> api) then Rejected
  else Resolved (api ++ [ReadingList.mkEntry url title false 0]).

Definition sampleRemoveEntry (url : string) (api : list ReadingList.Entry)
  : Settled (list ReadingList.Entry) :=
  if bool_decide (url ∈ ReadingList.entry_url <$> api)
  then Resolved (filter (fun e => ReadingList.entry_url e <> url) api)
  else Rejected.

Definition itemX : ReadingList.Item :=
  ReadingList.mkItem "https://x.example/" "X" "https://x.example/" None 1000.

(** A manager on the store, holding X. *)
Definition onStoreWorld : ReadingList.World (list ReadingList.Entry) :=
  ReadingList.mkWorld
    (ReadingList.mkHost None (Resolved (Some [itemX])))
    (ReadingList.mkManager [itemX] false).

(** A manager just loaded from a store in which the key is absent. *)
Definition freshStoreWorld : ReadingList.World (list ReadingList.Entry) :=
  ReadingList.mkWorld
    (ReadingList.mkHost None (Resolved None))
    (ReadingList.mkManager [] false).

(** A manager on the host's list, which holds X. *)
Definition onApiWorld : ReadingList.World (list ReadingList.Entry) :=
  ReadingList.mkWorld
    (ReadingList.mkHost
       (Some [ReadingList.mkEntry "https://x.example/" "X" false 1000])
       (Resolved None))
    (ReadingList.mkManager
       [ReadingList.mkItem "https://x.example/" "X" "https://x.example/" (Some false) 1000]
       true).

(** A manager in a browser without a reading list, the store rejecting. *)
Definition brokenStoreWorld : ReadingList.World (list ReadingList.Entry) :=
  ReadingList.mkWorld
    (ReadingList.mkHost None Rejected)
    (ReadingList.mkManager [itemX] false).

(** ** Sample favorites *)

Definition favX : FlatBookmark := mkBookmark "31" "X" "https://x.example/" (Some "1").
Definition favY : FlatBookmark := mkBookmark "32" "Y" "https://y.example/" (Some "1").
Definition favZ : FlatBookmark := mkBookmark "33" "Z" "https://z.example/" (Some "1").

(** A manager that knows X, Y and Z and has them as its favorites. *)
Definition xyz : Manager := mkManager [favX; favY; favZ] [] [favX; favY; favZ] [].

(** A manager whose favorites hold Y twice and X once. *)
Definition yxy : Manager := mkManager [favX; favY; favZ] [] [favY; favX; favY] [].

(** A favorites array, as it may come out of the store, that holds X twice. *)
Definition twiceX : Manager := mkManager [favX; favY; favZ] [] [favX; favY; favX] [].

(** ** Facts about the embedding *)

(** Induction over a tree, with the hypothesis for every child. *)
Lemma BookmarkNode_forall_ind (P : BookmarkNode -> Prop) :
  (forall i t u p, P (Node i t u p None)) ->
  (forall i t u p cs, Forall P cs -> P (Node i t u p (Some cs))) ->
  forall node, P node.
Proof.
  intros Hleaf Hfolder.
  fix IH 1.
  intros [i t u p [cs|]]; [|apply Hleaf].
  apply Hfolder.
  induction cs as [|c cs IHcs]; constructor; [apply IH | apply IHcs].
Qed.

Lemma collectChild_unfold i t u p c acc :
  collectChild (Node i t u p c) acc =
  if truthy_url u then acc ++ [mkBookmark i t (url_value u) p]
  else match c with
       | Some cs => collectBookmarksFromFolder cs acc
       | None => acc
       end.
Proof.
  simpl. destruct (truthy_url u); [reflexivity|].
  destruct c as [cs|]; [|reflexivity].
  unfold collectBookmarksFromFolder. revert acc.
  induction cs as [|n cs IH]; intros acc; simpl; [reflexivity | apply IH].
Qed.

Lemma traverseNode_unfold i t u p c m :
  traverseNode (Node i t u p c) m =
  match c with
  | Some cs =>
      traverseBookmarksTree cs
        (if truthy t && negb (reserved i)
         then set_folders (folders m ++ [folderEntry i t p cs]) m
         else m)
  | None =>
      if truthy_url u
      then set_chromeBookmarks (chromeBookmarks m ++ [mkBookmark i t (url_value u) p]) m
      else m
  end.
Proof.
  simpl. destruct c as [cs|]; [|reflexivity].
  unfold traverseBookmarksTree.
  generalize (if truthy t && negb (reserved i)
              then set_folders (folders m ++ [folderEntry i t p cs]) m
              else m) as m1.
  generalize (folderEntry i t p cs) as entry. intros _.
  induction cs as [|n cs IH]; intros m1; simpl; [reflexivity | apply IH].
Qed.

Lemma preorder_cons node nodes :
  preorder (node :: nodes) = preorderNode node ++ preorder nodes.
Proof. reflexivity. Qed.

Lemma preorderNode_unfold node :
  preorderNode node = node :: descendants node.
Proof. destruct node as [i t u p [cs|]]; reflexivity. Qed.

Lemma leaves_nil : leaves [] = [].
Proof. reflexivity. Qed.

Lemma leaves_cons node nodes :
  leaves (node :: nodes) = leaves [node] ++ leaves nodes.
Proof.
  unfold leaves. rewrite !preorder_cons, app_nil_r.
  by rewrite filter_app, fmap_app.
Qed.

Lemma leaves_node node :
  leaves [node] =
  (if is_leaf node then [toFlatBookmark node] else [])
  ++ leaves (default [] (node_children node)).
Proof.
  unfold leaves. rewrite preorder_cons, app_nil_r, preorderNode_unfold.
  unfold descendants. rewrite filter_cons.
  destruct (decide (is_leaf node)) as [H|H]; destruct (is_leaf node); done.
Qed.

Lemma listedFolders_cons node nodes :
  listedFolders (node :: nodes) = listedFolders [node] ++ listedFolders nodes.
Proof.
  unfold listedFolders. rewrite !preorder_cons, app_nil_r.
  by rewrite filter_app, fmap_app.
Qed.

Lemma listedFolders_node node :
  listedFolders [node] =
  (if is_listed_folder node then [pushedFolder node] else [])
  ++ listedFolders (default [] (node_children node)).
Proof.
  unfold listedFolders. rewrite preorder_cons, app_nil_r, preorderNode_unfold.
  unfold descendants. rewrite filter_cons.
  destruct (decide (is_listed_folder node)) as [H|H];
    destruct (is_listed_folder node); done.
Qed.

(** *** The collection pass *)

Lemma collect_forest cs :
  Forall (fun c => forall acc, collectChild c acc = acc ++ leaves [c]) cs ->
  forall acc, collectBookmarksFromFolder cs acc = acc ++ leaves cs.
Proof.
  unfold collectBookmarksFromFolder.
  induction 1 as [|c cs Hc _ IH]; intros acc; simpl.
  - by rewrite leaves_nil, app_nil_r.
  - rewrite IH, Hc, (leaves_cons c cs). by rewrite app_assoc.
Qed.

Lemma collectChild_leaves node :
  Forall no_url_on_folder (preorderNode node) ->
  forall acc, collectChild node acc = acc ++ leaves [node].
Proof.
  induction node as [i t u p|i t u p cs IH] using BookmarkNode_forall_ind;
    intros Hwf acc; rewrite collectChild_unfold, leaves_node;
    unfold is_leaf; simpl.
  - rewrite leaves_nil, andb_true_r.
    destruct (truthy_url u); simpl; by rewrite ?app_nil_r.
  - rewrite andb_false_r. simpl.
    apply Forall_cons_1 in Hwf as [Hnode Hbelow].
    unfold no_url_on_folder in Hnode. simpl in Hnode.
    rewrite andb_true_r in Hnode.
    destruct (truthy_url u); [done|].
    apply collect_forest.
    clear Hnode. induction IH as [|c cs Hc _ IHcs]; constructor.
    + apply Hc. simpl in Hbelow. by apply Forall_app in Hbelow as [? _].
    + apply IHcs. simpl in Hbelow. by apply Forall_app in Hbelow as [_ ?].
Qed.

Lemma collect_leaves cs :
  Forall no_url_on_folder (preorder cs) ->
  collectBookmarksFromFolder cs [] = leaves cs.
Proof.
  intros Hwf. rewrite collect_forest; [reflexivity|].
  induction cs as [|c cs IH]; constructor.
  - apply collectChild_leaves.
    rewrite preorder_cons in Hwf. by apply Forall_app in Hwf as [? _].
  - apply IH. rewrite preorder_cons in Hwf. by apply Forall_app in Hwf as [_ ?].
Qed.

(** *** The traversal *)

Lemma traverse_forest cs :
  Forall (fun c => forall m, traverseNode c m = traversed [c] m) cs ->
  forall m, traverseBookmarksTree cs m = traversed cs m.
Proof.
  unfold traverseBookmarksTree, traversed.
  induction 1 as [|c cs Hc _ IH]; intros m; simpl.
  - destruct m. simpl. by rewrite !app_nil_r.
  - rewrite IH, Hc, (leaves_cons c cs), (listedFolders_cons c cs).
    simpl. by rewrite !app_assoc.
Qed.

Lemma traverseNode_traversed node m :
  traverseNode node m = traversed [node] m.
Proof.
  revert m.
  induction node as [i t u p|i t u p cs IH] using BookmarkNode_forall_ind;
    intros m; rewrite traverseNode_unfold; unfold traversed;
    rewrite leaves_node, listedFolders_node;
    unfold is_leaf, is_listed_folder, is_folder; simpl.
  - rewrite andb_true_r. destruct m, (truthy_url u); simpl;
      by rewrite ?app_nil_r.
  - rewrite andb_false_r. rewrite (traverse_forest cs IH). unfold traversed.
    destruct (truthy t && negb (reserved i)); simpl; [|reflexivity].
    by rewrite <- app_assoc.
Qed.

Lemma traverseBookmarksTree_traversed nodes m :
  traverseBookmarksTree nodes m = traversed nodes m.
Proof.
  apply traverse_forest, Forall_forall. intros c _ m'.
  apply traverseNode_traversed.
Qed.

(** *** The sort *)

Section SortFacts.

Context {A : Type} (cmp : A -> A -> Z).

Lemma sortInsert_Permutation x l : sortInsert cmp x l ≡ₚ x :: l.
Proof.
  induction l as [|y l IH]; simpl; [reflexivity|].
  destruct (cmp x y <=? 0)%Z; [reflexivity|].
  rewrite IH. apply Permutation_swap.
Qed.

Lemma arraySort_Permutation l : arraySort cmp l ≡ₚ l.
Proof.
  induction l as [|x l IH]; simpl; [reflexivity|].
  by rewrite sortInsert_Permutation, IH.
Qed.

(** The comparator is consistent: of two elements one is not greater
    than the other, and not-greater is transitive. *)
Hypothesis cmp_total : forall a b, (0 < cmp a b -> cmp b a <= 0)%Z.
Hypothesis cmp_trans : forall a b c, (cmp a b <= 0 -> cmp b c <= 0 -> cmp a c <= 0)%Z.

Lemma sortInsert_StronglySorted x l :
  StronglySorted (fun a b => (cmp a b <= 0)%Z) l ->
  StronglySorted (fun a b => (cmp a b <= 0)%Z) (sortInsert cmp x l).
Proof.
  induction 1 as [|y l Hl IH Hy]; simpl.
  - repeat constructor.
  - destruct (Z.leb_spec (cmp x y) 0) as [Hle|Hgt].
    + constructor; [by constructor|].
      constructor; [exact Hle|].
      eapply Forall_impl; [exact Hy|]. intros z Hz. by eapply cmp_trans.
    + constructor; [exact IH|].
      rewrite sortInsert_Permutation. constructor; [by apply cmp_total | exact Hy].
Qed.

Lemma arraySort_StronglySorted l :
  StronglySorted (fun a b => (cmp a b <= 0)%Z) (arraySort cmp l).
Proof.
  induction l as [|x l IH]; simpl; [constructor|].
  by apply sortInsert_StronglySorted.
Qed.

(** Stability: among the elements that share a key on which the
    comparator cannot tell them apart, the order is the original one. *)
Context {K : Type} `{EqDecision K} (key : A -> K).
Hypothesis cmp_key : forall a b, key a = key b -> (cmp a b <= 0)%Z.

Lemma sortInsert_stable k x l :
  filter (fun a => key a = k) (sortInsert cmp x l) =
  filter (fun a => key a = k) (x :: l).
Proof.
  induction l as [|y l IH]; simpl; [reflexivity|].
  destruct (Z.leb_spec (cmp x y) 0) as [Hle|Hgt]; [reflexivity|].
  rewrite (filter_cons _ y), IH, !(filter_cons _ x), (filter_cons _ y).
  destruct (decide (key x = k)) as [Hx|Hx]; [|reflexivity].
  destruct (decide (key y = k)) as [Hy|Hy]; [|reflexivity].
  assert (cmp x y <= 0)%Z by (apply cmp_key; congruence). lia.
Qed.

Lemma arraySort_stable k l :
  filter (fun a => key a = k) (arraySort cmp l) = filter (fun a => key a = k) l.
Proof.
  induction l as [|x l IH]; simpl; [reflexivity|].
  by rewrite sortInsert_stable, !filter_cons, IH.
Qed.

End SortFacts.

(** *** The collation by character code is consistent *)

Lemma codeCompare_total a b : (0 < codeCompare a b -> codeCompare b a <= 0)%Z.
Proof.
  unfold codeCompare. rewrite (String.compare_antisym a b).
  destruct (String.compare b a); simpl; lia.
Qed.

Lemma codeCompare_le a b :
  (codeCompare a b <= 0)%Z <-> a = b \/ String_as_OT.lt a b.
Proof.
  unfold codeCompare. split.
  - destruct (String.compare a b) eqn:E; [| |lia]; intros _.
    + left. by apply String.compare_eq_iff.
    + right. by apply String_as_OT.cmp_lt.
  - intros [->|Hlt].
    + pose proof (proj2 (String_as_OT.cmp_eq b b) eq_refl) as E.
      unfold String_as_OT.cmp in E. rewrite E. lia.
    + apply String_as_OT.cmp_lt in Hlt. unfold String_as_OT.cmp in Hlt.
      rewrite Hlt. lia.
Qed.

Lemma codeCompare_trans a b c :
  (codeCompare a b <= 0 -> codeCompare b c <= 0 -> codeCompare a c <= 0)%Z.
Proof.
  rewrite !codeCompare_le. intros [->|Hab] [->|Hbc]; auto.
  right. by eapply String_as_OT.lt_trans.
Qed.

(** *** The whole load *)

Lemma loadChromeBookmarks_Some localeCompare tree m :
  loadChromeBookmarks localeCompare (Some tree) m =
  mkManager (leaves tree)
    (arraySort (compareFolders localeCompare) (listedFolders tree))
    (favorites m) (writes m).
Proof.
  unfold loadChromeBookmarks. rewrite traverseBookmarksTree_traversed.
  reflexivity.
Qed.

Lemma elem_of_preorder node nodes :
  node ∈ preorder nodes <-> exists c, c ∈ nodes /\ node ∈ preorderNode c.
Proof.
  unfold preorder. rewrite list_elem_of_In, in_flat_map.
  by setoid_rewrite list_elem_of_In.
Qed.

Lemma descendants_in_preorderNode node :
  forall x, x ∈ preorderNode node ->
  forall y, y ∈ descendants x -> y ∈ preorderNode node.
Proof.
  induction node as [i t u p|i t u p cs IH] using BookmarkNode_forall_ind;
    intros x Hx y Hy; rewrite preorderNode_unfold in *; unfold descendants in *;
    simpl in *.
  - apply list_elem_of_singleton in Hx as ->. simpl in Hy. inversion Hy.
  - apply elem_of_cons in Hx as [->|Hx]; simpl in Hy.
    + by right.
    + right. apply elem_of_preorder in Hx as (c & Hc & Hx).
      apply elem_of_preorder. exists c. split; [done|].
      rewrite Forall_forall in IH. by eapply IH.
Qed.

Lemma descendants_in_preorder nodes x y :
  x ∈ preorder nodes -> y ∈ descendants x -> y ∈ preorder nodes.
Proof.
  intros (c & Hc & Hx)%elem_of_preorder Hy.
  apply elem_of_preorder. exists c. split; [done|].
  by eapply descendants_in_preorderNode.
Qed.

Lemma pushedFolder_listed node :
  is_listed_folder node ->
  reserved (folder_id (pushedFolder node)) = false /\
  folder_title (pushedFolder node) <> "".
Proof.
  unfold is_listed_folder. simpl.
  intros [[_ Ht]%andb_True Hr%negb_True]%andb_True. split.
  - by destruct (reserved (node_id node)).
  - by destruct (node_title node).
Qed.

(** ** The flattener: the properties *)

(** C2. The bookmark list of a flattened forest is the list of its leaves
    (the nodes with a url and no children), one entry per leaf, in the
    depth-first pre-order of the forest; no entry comes from a folder. *)
Theorem flatten_bookmarks_are_leaves localeCompare tree m :
  chromeBookmarks (loadChromeBookmarks localeCompare (Some tree) m) =
    toFlatBookmark <$> filter is_leaf (preorder tree)
  /\ Forall (fun node => is_folder node = false) (filter is_leaf (preorder tree)).
Proof.
  rewrite loadChromeBookmarks_Some. split; [reflexivity|].
  apply Forall_forall. intros node [Hleaf _]%list_elem_of_filter.
  unfold is_leaf, is_folder in *.
  apply andb_True in Hleaf as [_ Hc]. by destruct (has_children _).
Qed.

(** C3. In a forest of host nodes, where a url sits only on nodes
    without children, for every listed folder (titled, not a reserved
    root) the entry pushed for it is in the folder list, and its children
    are the leaves below the folder at any depth, in pre-order. Of the
    forest only the nodes below the folder need be host nodes. *)
Theorem folder_children_are_leaf_descendants localeCompare tree m node :
  node ∈ preorder tree ->
  is_listed_folder node ->
  Forall no_url_on_folder (descendants node) ->
  pushedFolder node ∈ folders (loadChromeBookmarks localeCompare (Some tree) m)
  /\ folder_id (pushedFolder node) = node_id node
  /\ folder_title (pushedFolder node) = node_title node
  /\ folder_children (pushedFolder node) =
       toFlatBookmark <$> filter is_leaf (descendants node).
Proof.
  intros Hin Hlisted Hwf. rewrite loadChromeBookmarks_Some. simpl.
  split; [|split; [reflexivity|split; [reflexivity|]]].
  - rewrite arraySort_Permutation. unfold listedFolders.
    apply list_elem_of_fmap_2, list_elem_of_filter. by split.
  - by apply collect_leaves.
Qed.

Lemma folder_children_are_leaf_descendants_witness :
  workFolder ∈ preorder [hostRoot]
  /\ is_listed_folder workFolder
  /\ Forall no_url_on_folder (descendants workFolder)
  /\ pushedFolder workFolder ∈
       folders (loadChromeBookmarks codeCompare (Some [hostRoot]) constructor)
  /\ folder_children (pushedFolder workFolder) = [toFlatBookmark bookmarkB].
Proof.
  assert (Hin : workFolder ∈ preorder [hostRoot]).
  { apply list_elem_of_In. simpl. auto. }
  assert (Hlisted : is_listed_folder workFolder) by exact I.
  assert (Hwf : Forall no_url_on_folder (descendants workFolder)).
  { repeat constructor. }
  destruct (folder_children_are_leaf_descendants codeCompare [hostRoot]
              constructor workFolder Hin Hlisted Hwf) as (Hout & _ & _ & Hch).
  repeat split; try assumption.
Defined.

(** Outside the host's data model the two passes part: with a url on a
    node with children, which [getTree] never returns, the collection
    pass below the listed folder Outer takes Link for a bookmark and
    never reaches Inner, its only leaf. *)
Lemma folder_children_miss_link_with_children :
  outerFolder ∈ preorder [outerFolder]
  /\ is_listed_folder outerFolder
  /\ toFlatBookmark <$> filter is_leaf (descendants outerFolder)
       = [toFlatBookmark nestedLeaf]
  /\ forall entry,
       entry ∈ folders (loadChromeBookmarks codeCompare (Some [outerFolder]) constructor) ->
       folder_id entry = node_id outerFolder ->
       folder_children entry = [toFlatBookmark linkWithChildren]
       /\ folder_children entry <>
            toFlatBookmark <$> filter is_leaf (descendants outerFolder).
Proof.
  split; [apply list_elem_of_In; simpl; auto|].
  split; [exact I|].
  split; [reflexivity|].
  intros entry Hin Hid. vm_compute in Hin.
  apply elem_of_cons in Hin as [->|Hin]; [discriminate Hid|].
  apply list_elem_of_singleton in Hin as ->.
  split; [reflexivity|discriminate].
Qed.

(** C4. No entry of the flattened folder list has a reserved root id or
    an empty title; the nodes below a reserved root are traversed all
    the same: the leaves below it are in the bookmark list and the
    listed folders below it are in the folder list. *)
Theorem reserved_roots_skipped_but_traversed localeCompare tree m :
  Forall (fun entry => reserved (folder_id entry) = false /\ folder_title entry <> "")
    (folders (loadChromeBookmarks localeCompare (Some tree) m))
  /\ forall root node,
       root ∈ preorder tree ->
       reserved (node_id root) ->
       node ∈ descendants root ->
       (is_leaf node ->
        toFlatBookmark node ∈
          chromeBookmarks (loadChromeBookmarks localeCompare (Some tree) m))
       /\ (is_listed_folder node ->
           pushedFolder node ∈
             folders (loadChromeBookmarks localeCompare (Some tree) m)).
Proof.
  rewrite loadChromeBookmarks_Some. simpl. split.
  - rewrite arraySort_Permutation. unfold listedFolders.
    apply Forall_forall. intros entry (node & -> & Hnode)%list_elem_of_fmap.
    apply list_elem_of_filter in Hnode as [Hlisted _].
    by apply pushedFolder_listed.
  - intros root node Hroot _ Hnode.
    pose proof (descendants_in_preorder tree root node Hroot Hnode) as Hin.
    split; intros H.
    + apply list_elem_of_fmap_2, list_elem_of_filter. by split.
    + rewrite arraySort_Permutation.
      apply list_elem_of_fmap_2, list_elem_of_filter. by split.
Qed.

Lemma reserved_roots_skipped_but_traversed_witness :
  bookmarksBar ∈ preorder [hostRoot]
  /\ reserved (node_id bookmarksBar)
  /\ bookmarkB ∈ descendants bookmarksBar
  /\ workFolder ∈ descendants bookmarksBar
  /\ toFlatBookmark bookmarkB ∈
       chromeBookmarks (loadChromeBookmarks codeCompare (Some [hostRoot]) constructor)
  /\ pushedFolder workFolder ∈
       folders (loadChromeBookmarks codeCompare (Some [hostRoot]) constructor)
  /\ Forall (fun entry => folder_id entry <> node_id bookmarksBar)
       (folders (loadChromeBookmarks codeCompare (Some [hostRoot]) constructor)).
Proof.
  assert (Hbar : bookmarksBar ∈ preorder [hostRoot]).
  { apply list_elem_of_In. simpl. auto. }
  assert (Hres : reserved (node_id bookmarksBar)) by exact I.
  assert (HB : bookmarkB ∈ descendants bookmarksBar).
  { apply list_elem_of_In. simpl. auto. }
  assert (HW : workFolder ∈ descendants bookmarksBar).
  { apply list_elem_of_In. simpl. auto. }
  destruct (reserved_roots_skipped_but_traversed codeCompare [hostRoot] constructor)
    as [Hnone Hbelow].
  destruct (Hbelow bookmarksBar bookmarkB Hbar Hres HB) as [Hleaf _].
  destruct (Hbelow bookmarksBar workFolder Hbar Hres HW) as [_ Hfolder].
  repeat split; try assumption.
  - exact (Hleaf I).
  - exact (Hfolder I).
  - eapply Forall_impl; [exact Hnone|].
    intros entry [Hr _] Hid. rewrite Hid in Hr. discriminate Hr.
Defined.

(** The scenario of the design note: the bar, reserved, holds A and the
    folder Work, which holds B. *)
Example flatten_bookmarks_bar :
  let out := loadChromeBookmarks codeCompare (Some [bookmarksBar]) constructor in
  chromeBookmarks out = [toFlatBookmark bookmarkA; toFlatBookmark bookmarkB]
  /\ folders out = [mkFolder "6" "Work" [toFlatBookmark bookmarkB] (Some "1")].
Proof. split; reflexivity. Qed.

(** C8. After the traversal the folder list is sorted by title under the
    collation, which is taken to be consistent; it holds the entries the
    traversal pushed, and entries with equal titles are in the order the
    traversal pushed them. *)
Theorem folders_sorted_by_title_stable (localeCompare : string -> string -> Z)
  (Htotal : forall a b, (0 < localeCompare a b -> localeCompare b a <= 0)%Z)
  (Htrans : forall a b c,
      (localeCompare a b <= 0 -> localeCompare b c <= 0 -> localeCompare a c <= 0)%Z)
  tree m :
  let pushed := folders (traverseBookmarksTree tree (resetLists m)) in
  let out := folders (loadChromeBookmarks localeCompare (Some tree) m) in
  pushed = pushedFolder <$> filter is_listed_folder (preorder tree)
  /\ StronglySorted (titleLe localeCompare) out
  /\ out ≡ₚ pushed
  /\ forall title,
       filter (fun entry => folder_title entry = title) out =
       filter (fun entry => folder_title entry = title) pushed.
Proof.
  intros pushed out. subst pushed out.
  rewrite loadChromeBookmarks_Some, traverseBookmarksTree_traversed. simpl.
  split; [reflexivity|]. split; [|split].
  - apply arraySort_StronglySorted; unfold compareFolders; eauto.
  - apply arraySort_Permutation.
  - intros title. apply arraySort_stable.
    intros a b Hab. unfold compareFolders. rewrite Hab.
    destruct (Z.lt_ge_cases 0 (localeCompare (folder_title b) (folder_title b)))
      as [Hgt|Hle]; [by apply Htotal | lia].
Qed.

Lemma folders_sorted_by_title_stable_witness :
  let out := folders (loadChromeBookmarks codeCompare (Some [hostRoot]) constructor) in
  StronglySorted (titleLe codeCompare) out
  /\ folder_id <$> out = ["10"; "6"; "8"]
  /\ folder_title <$> out = ["Archive"; "Work"; "Work"]
  /\ filter (fun entry => folder_title entry = "Work") out =
       [pushedFolder workFolder; pushedFolder otherWork].
Proof.
  destruct (folders_sorted_by_title_stable codeCompare codeCompare_total
              codeCompare_trans [hostRoot] constructor)
    as (_ & Hsorted & _ & Hstable).
  split; [exact Hsorted|].
  split; [reflexivity|]. split; [reflexivity|].
  rewrite (Hstable "Work"). reflexivity.
Defined.

(** ** The favorites list: facts *)

Lemma findById_Some id l i x :
  findById id l = Some (i, x) <->
  l !! i = Some x /\ bm_id x = id
  /\ forall j y, l !! j = Some y -> j < i -> bm_id y <> id.
Proof. exact (list_find_Some (fun b => bm_id b = id) l i x). Qed.

Lemma findById_None id l : findById id l = None <-> id ∉ ids l.
Proof.
  unfold findById, ids. rewrite list_find_None, Forall_forall, list_elem_of_fmap.
  split.
  - intros H (x & -> & Hx). by apply (H x).
  - intros H x Hx Hid. apply H. by exists x.
Qed.

Lemma findById_is_Some id l : id ∈ ids l <-> is_Some (findById id l).
Proof.
  rewrite <- not_eq_None_Some, findById_None.
  split; [tauto|]. intros H. by destruct (decide (id ∈ ids l)).
Qed.

Lemma findById_snoc_absent id l b :
  id ∉ ids l -> bm_id b = id -> findById id (l ++ [b]) = Some (length l, b).
Proof.
  intros Habs Hb. apply findById_Some. split; [|split; [done|]].
  - by rewrite lookup_app_r, Nat.sub_diag.
  - intros j y Hy Hj Hid. apply Habs.
    rewrite lookup_app_l in Hy by done.
    unfold ids. apply list_elem_of_fmap. exists y. split; [done|].
    by eapply list_elem_of_lookup_2.
Qed.

Lemma spliceOut_snoc l b : spliceOut (length l) (l ++ [b]) = l.
Proof. unfold spliceOut. by rewrite delete_middle, app_nil_r. Qed.

Lemma spliceOut_Permutation l i x : l !! i = Some x -> l ≡ₚ x :: spliceOut i l.
Proof. apply delete_Permutation. Qed.

Lemma spliceIn_Permutation i x l : spliceIn i x l ≡ₚ x :: l.
Proof.
  unfold spliceIn. rewrite <- Permutation_middle. by rewrite take_drop.
Qed.

Lemma spliceIn_spliceOut_same l i x :
  l !! i = Some x -> spliceIn i x (spliceOut i l) = l.
Proof.
  intros Hx. unfold spliceIn, spliceOut. rewrite delete_take_drop.
  assert (length (take i l) = i) as Hlen.
  { apply length_take_le. apply lookup_lt_Some in Hx. lia. }
  rewrite take_app_length', drop_app_length' by done.
  by apply take_drop_middle.
Qed.

Lemma spliceIn_lookup i x l : i <= length l -> spliceIn i x l !! i = Some x.
Proof.
  intros Hi. unfold spliceIn. apply list_lookup_middle. by rewrite length_take_le.
Qed.

Lemma spliceOut_spliceIn i x l : i <= length l -> spliceOut i (spliceIn i x l) = l.
Proof.
  intros Hi. unfold spliceIn, spliceOut.
  rewrite <- (length_take_le l i) at 1 by done.
  by rewrite delete_middle, take_drop.
Qed.

Lemma ids_spliceOut_absent l i x :
  NoDup (ids l) -> l !! i = Some x -> bm_id x ∉ ids (spliceOut i l).
Proof.
  intros Hnd Hx. unfold ids in *.
  rewrite (spliceOut_Permutation l i x Hx), fmap_cons in Hnd.
  by apply NoDup_cons_1_1 in Hnd.
Qed.

Lemma reorderFavorite_found d t m di ti x y :
  findById d (favorites m) = Some (di, x) ->
  findById t (favorites m) = Some (ti, y) ->
  reorderFavorite d t m =
  saveFavorites (set_favorites (spliceIn ti x (spliceOut di (favorites m))) m).
Proof. intros Hd Ht. unfold reorderFavorite. by rewrite Hd, Ht. Qed.

Lemma reorderFavorite_absent d t m :
  d ∉ ids (favorites m) \/ t ∉ ids (favorites m) -> reorderFavorite d t m = m.
Proof.
  unfold reorderFavorite. intros [H|H]; apply findById_None in H; rewrite H.
  - reflexivity.
  - by destruct (findById d (favorites m)) as [[? ?]|].
Qed.

(** ** The favorites list: the properties *)

(** C1, as amended. With favorites [[X, Y, Z]], reordering X onto Z gives
    [[Y, Z, X]]. In general, when both ids are present, the dragged entry
    is removed and inserted at the index the target had before the
    removal: the dragged entry ends at that index, the others keep their
    order, and the target is just before it after a forward drag and
    just after it after a backward drag. *)
Theorem reorder_lands_on_target_index :
  (forall x y z m,
     bm_id x <> bm_id z -> bm_id y <> bm_id z ->
     favorites (reorderFavorite (bm_id x) (bm_id z) (set_favorites [x; y; z] m))
     = [y; z; x])
  /\ (forall m d t di ti x y,
        findById d (favorites m) = Some (di, x) ->
        findById t (favorites m) = Some (ti, y) ->
        favorites (reorderFavorite d t m) !! ti = Some x
        /\ spliceOut ti (favorites (reorderFavorite d t m)) = spliceOut di (favorites m)
        /\ (di < ti -> favorites (reorderFavorite d t m) !! (ti - 1) = Some y)
        /\ (ti < di -> favorites (reorderFavorite d t m) !! (ti + 1) = Some y)).
Proof.
  split.
  - intros x y z m Hxz Hyz.
    rewrite (reorderFavorite_found _ _ _ 0 2 x z); [reflexivity|..];
      apply findById_Some; simpl.
    + split; [done|]. split; [done|]. intros j w _ Hj. lia.
    + split; [done|]. split; [done|].
      intros [|[|j]] w Hw Hj; simpl in Hw; simplify_eq; [done..|lia].
  - intros m d t di ti x y Hd Ht.
    rewrite (reorderFavorite_found d t m di ti x y Hd Ht). simpl.
    apply findById_Some in Hd as (Hx & _ & _).
    apply findById_Some in Ht as (Hy & _ & _).
    assert (ti <= length (spliceOut di (favorites m))) as Hlen.
    { unfold spliceOut. rewrite length_delete by eauto.
      apply lookup_lt_Some in Hy. lia. }
    split; [by apply spliceIn_lookup|].
    split; [by apply spliceOut_spliceIn|].
    unfold spliceIn. split; intros Hlt.
    + rewrite lookup_app_l by (rewrite length_take_le; lia).
      rewrite lookup_take_lt by lia. unfold spliceOut.
      rewrite list_lookup_delete_ge by lia.
      by replace (S (ti - 1)) with ti by lia.
    + rewrite lookup_app_r by (rewrite length_take_le; lia).
      rewrite length_take_le by lia.
      replace (ti + 1 - ti) with 1 by lia. simpl.
      rewrite lookup_drop, Nat.add_0_r. unfold spliceOut.
      by rewrite list_lookup_delete_lt.
Qed.

Lemma reorder_lands_on_target_index_witness :
  findById "31" (favorites xyz) = Some (0, favX)
  /\ findById "33" (favorites xyz) = Some (2, favZ)
  /\ favorites (reorderFavorite "31" "33" xyz) = [favY; favZ; favX]
  /\ favorites (reorderFavorite "31" "33" xyz) !! 2 = Some favX
  /\ favorites (reorderFavorite "31" "33" xyz) !! 1 = Some favZ.
Proof.
  destruct reorder_lands_on_target_index as [Hxyz Hgen].
  assert (Hd : findById "31" (favorites xyz) = Some (0, favX)) by reflexivity.
  assert (Ht : findById "33" (favorites xyz) = Some (2, favZ)) by reflexivity.
  destruct (Hgen xyz "31" "33" 0 2 favX favZ Hd Ht) as (Hat & _ & Hfwd & _).
  split; [exact Hd|]. split; [exact Ht|].
  split; [|split; [exact Hat|]].
  - apply (Hxyz favX favY favZ xyz); discriminate.
  - apply Hfwd. lia.
Defined.

(** C1, as stated, fails: had the dragged entry gone to the index the
    target occupies once the dragged entry is out, X dragged onto Z in
    [[X, Y, Z]] would give [[Y, X, Z]]; the code gives [[Y, Z, X]]. *)
Lemma reorder_not_at_current_target_index :
  favorites (reorderFavorite "31" "33" xyz) = [favY; favZ; favX]
  /\ reorderAtCurrentTargetIndex "31" "33" (favorites xyz) = Some [favY; favX; favZ]
  /\ Some (favorites (reorderFavorite "31" "33" xyz))
     <> reorderAtCurrentTargetIndex "31" "33" (favorites xyz).
Proof. split; [reflexivity|]. split; [reflexivity|]. discriminate. Qed.

Lemma toggleFavorite_known id m k b :
  findById id (chromeBookmarks m) = Some (k, b) ->
  toggleFavorite id m =
  saveFavorites
    (match findById id (favorites m) with
     | Some (favoriteIndex, _) => set_favorites (spliceOut favoriteIndex (favorites m)) m
     | None => set_favorites (favorites m ++ [b]) m
     end).
Proof. intros Hk. unfold toggleFavorite. by rewrite Hk. Qed.

Lemma toggleFavorite_present id m k b i old :
  findById id (chromeBookmarks m) = Some (k, b) ->
  findById id (favorites m) = Some (i, old) ->
  favorites (toggleFavorite id m) = spliceOut i (favorites m)
  /\ chromeBookmarks (toggleFavorite id m) = chromeBookmarks m.
Proof. intros Hk Hf. rewrite (toggleFavorite_known id m k b Hk), Hf. done. Qed.

Lemma toggleFavorite_not_present id m k b :
  findById id (chromeBookmarks m) = Some (k, b) ->
  findById id (favorites m) = None ->
  favorites (toggleFavorite id m) = favorites m ++ [b]
  /\ chromeBookmarks (toggleFavorite id m) = chromeBookmarks m.
Proof. intros Hk Hf. rewrite (toggleFavorite_known id m k b Hk), Hf. done. Qed.

Lemma occurrences_absent id l : occurrences id l = 0 <-> id ∉ ids l.
Proof.
  unfold occurrences, ids. rewrite length_zero_iff_nil. split.
  - intros Hnil (b & -> & Hb)%list_elem_of_fmap.
    assert (b ∈ filter (fun x => bm_id x = bm_id b) l) as Hin
      by (by apply list_elem_of_filter).
    rewrite Hnil in Hin. inversion Hin.
  - intros Habs. induction l as [|y l IH]; [done|].
    rewrite fmap_cons, not_elem_of_cons in Habs. destruct Habs as [Hy Hl].
    rewrite filter_cons, decide_False by (intros H; by apply Hy).
    by apply IH.
Qed.

Lemma occurrences_Permutation id l k :
  l ≡ₚ k -> occurrences id l = occurrences id k.
Proof. intros Hperm. unfold occurrences. by rewrite Hperm. Qed.

Lemma ids_spliceOut_absent_once l i x :
  occurrences (bm_id x) l <= 1 ->
  l !! i = Some x ->
  bm_id x ∉ ids (spliceOut i l).
Proof.
  intros Honce Hx. apply occurrences_absent.
  rewrite (occurrences_Permutation _ _ _ (spliceOut_Permutation l i x Hx)) in Honce.
  unfold occurrences in *. rewrite filter_cons, decide_True in Honce by done.
  rewrite length_cons in Honce. apply le_S_n, Nat.le_0_r in Honce. exact Honce.
Qed.

Lemma NoDup_occurrences id l : NoDup (ids l) -> occurrences id l <= 1.
Proof.
  induction l as [|y l IH]; intros Hnd; [unfold occurrences; simpl; lia|].
  unfold ids in Hnd. rewrite fmap_cons in Hnd. apply NoDup_cons in Hnd as [Hy Hnd].
  unfold occurrences. rewrite filter_cons.
  destruct (decide (bm_id y = id)) as [<-|Hne].
  - apply occurrences_absent in Hy. unfold occurrences in Hy.
    rewrite length_cons, Hy. done.
  - by apply IH.
Qed.

Lemma runOp_ids_NoDup op m :
  NoDup (ids (favorites m)) -> NoDup (ids (favorites (runOp op m))).
Proof.
  intros Hnd.
  assert (Hsub : forall i, NoDup (ids (spliceOut i (favorites m)))).
  { intros i. unfold ids, spliceOut. eapply sublist_NoDup; [exact Hnd|].
    apply fmap_sublist, sublist_delete. }
  assert (Happ : forall b, findById (bm_id b) (favorites m) = None ->
                   NoDup (ids (favorites m ++ [b]))).
  { intros b Hb%findById_None. unfold ids in *. rewrite fmap_app.
    apply NoDup_app. split; [done|]. split; [|apply NoDup_singleton].
    by intros j Hj ->%list_elem_of_singleton. }
  destruct op as [id|b|id|d t]; simpl.
  - unfold toggleFavorite.
    destruct (findById id (chromeBookmarks m)) as [[k b]|] eqn:Hk; [|done].
    destruct (findById id (favorites m)) as [[i old]|] eqn:Hf; simpl; [apply Hsub|].
    apply Happ. by apply findById_Some in Hk as (_ & -> & _).
  - unfold addToFavorites.
    destruct (findById (bm_id b) (favorites m)) as [[i old]|] eqn:Hf; [done|].
    by apply Happ.
  - unfold removeFromFavorites.
    destruct (findById id (favorites m)) as [[i old]|]; simpl; [apply Hsub|done].
  - unfold reorderFavorite.
    destruct (findById d (favorites m)) as [[di x]|] eqn:Hd; [|done].
    destruct (findById t (favorites m)) as [[ti y]|]; [|done].
    simpl. apply findById_Some in Hd as (Hx & _). unfold ids in *.
    by rewrite spliceIn_Permutation, <- (spliceOut_Permutation _ di x Hx).
Qed.

Lemma runEvents_ids_NoDup localeCompare events m :
  NoDup (ids (favorites m)) ->
  NoDup (ids (favorites (runEvents localeCompare events m))).
Proof.
  unfold runEvents. revert m.
  induction events as [|e events IH]; intros m Hnd; simpl; [done|].
  apply IH. destruct e as [op|bookmarkTree]; simpl.
  - by apply runOp_ids_NoDup.
  - destruct bookmarkTree as [tree|]; [|done]. by rewrite loadChromeBookmarks_Some.
Qed.

(** C5. For an id of the known bookmark set that at most one favorite
    has, toggling twice gives back the same set of favorite ids; an id
    that was a favorite is re-added at the end of the list, as the
    bookmark the known set holds for it, and a list that did not hold
    the id comes back unchanged. At most one favorite has the id in
    every manager a session reaches: from the constructor, or from
    favorites loaded with pairwise distinct ids, through any run of
    mutators and refreshes. *)
Theorem toggle_twice_restores_membership :
  (forall id m k b,
     findById id (chromeBookmarks m) = Some (k, b) ->
     occurrences id (favorites m) <= 1 ->
     (forall j, j ∈ ids (favorites (toggleFavorite id (toggleFavorite id m)))
                <-> j ∈ ids (favorites m))
     /\ (forall i old,
           findById id (favorites m) = Some (i, old) ->
           favorites (toggleFavorite id (toggleFavorite id m))
           = spliceOut i (favorites m) ++ [b]
           /\ last (favorites (toggleFavorite id (toggleFavorite id m))) = Some b)
     /\ (id ∉ ids (favorites m) ->
         favorites (toggleFavorite id (toggleFavorite id m)) = favorites m))
  /\ (forall localeCompare before events id,
        NoDup (ids (default [] before)) ->
        occurrences id
          (favorites (runEvents localeCompare events
                        (loadFavorites (Resolved before) constructor))) <= 1).
Proof.
  split.
  - intros id m k b Hk Honce.
    assert (Hb : bm_id b = id) by (by apply findById_Some in Hk as (_ & ? & _)).
    assert (Hpresent : forall i old,
               findById id (favorites m) = Some (i, old) ->
               favorites (toggleFavorite id (toggleFavorite id m))
               = spliceOut i (favorites m) ++ [b]).
    { intros i old Hf.
      destruct (toggleFavorite_present id m k b i old Hk Hf) as [Hfav Hcb].
      assert (findById id (favorites (toggleFavorite id m)) = None) as Hgone.
      { rewrite Hfav. apply findById_None.
        apply findById_Some in Hf as (Hold & <- & _).
        by apply ids_spliceOut_absent_once. }
      rewrite <- Hcb in Hk.
      destruct (toggleFavorite_not_present id _ k b Hk Hgone) as [-> _].
      by rewrite Hfav. }
    assert (Habsent : id ∉ ids (favorites m) ->
               favorites (toggleFavorite id (toggleFavorite id m)) = favorites m).
    { intros Habs. pose proof Habs as Hnone. apply findById_None in Hnone.
      destruct (toggleFavorite_not_present id m k b Hk Hnone) as [Hfav Hcb].
      pose proof (findById_snoc_absent id (favorites m) b Habs Hb) as Hfound.
      rewrite <- Hfav in Hfound. rewrite <- Hcb in Hk.
      destruct (toggleFavorite_present id _ k b _ _ Hk Hfound) as [-> _].
      rewrite Hfav. apply spliceOut_snoc. }
    split; [|split; [|exact Habsent]].
    + intros j. destruct (findById id (favorites m)) as [[i old]|] eqn:Hf.
      * rewrite (Hpresent i old eq_refl).
        apply findById_Some in Hf as (Hold & Hid & _).
        unfold ids. rewrite (spliceOut_Permutation (favorites m) i old Hold) at 2.
        rewrite fmap_app, fmap_cons, elem_of_app. simpl.
        rewrite list_elem_of_singleton, elem_of_cons, Hb, Hid. tauto.
      * apply findById_None in Hf. by rewrite (Habsent Hf).
    + intros i old Hf. rewrite (Hpresent i old Hf). split; [done|apply last_snoc].
  - intros localeCompare before events id Hnd.
    by apply NoDup_occurrences, runEvents_ids_NoDup.
Qed.

Lemma toggle_twice_restores_membership_witness :
  findById "31" (chromeBookmarks yxy) = Some (0, favX)
  /\ occurrences "31" (favorites yxy) <= 1
  /\ favorites (toggleFavorite "31" (toggleFavorite "31" yxy)) = [favY; favY; favX]
  /\ ("31" ∈ ids (favorites (toggleFavorite "31" (toggleFavorite "31" yxy)))
      <-> "31" ∈ ids (favorites yxy))
  /\ occurrences "31"
       (favorites (runEvents codeCompare
                     [Mutate (Add favX); Refresh (Some [hostRoot]); Mutate (Add favY);
                      Mutate (Reorder "32" "31")]
                     (loadFavorites (Resolved None) constructor))) <= 1.
Proof.
  assert (Hk : findById "31" (chromeBookmarks yxy) = Some (0, favX)) by reflexivity.
  assert (Honce : occurrences "31" (favorites yxy) <= 1) by (vm_compute; lia).
  assert (Hnil : NoDup (ids (default [] (None : option (list FlatBookmark)))))
    by apply NoDup_nil_2.
  destruct toggle_twice_restores_membership as [Htwice Hreach].
  destruct (Htwice "31" yxy 0 favX Hk Honce) as (Hmem & Hend & _).
  split; [exact Hk|]. split; [exact Honce|].
  split; [exact (proj1 (Hend 1 favX eq_refl))|].
  split; [apply Hmem|].
  exact (Hreach codeCompare None
           [Mutate (Add favX); Refresh (Some [hostRoot]); Mutate (Add favY);
            Mutate (Reorder "32" "31")] "31" Hnil).
Defined.

(** The condition is needed: on a list that holds the toggled id twice,
    which no run of the mutators produces, both toggles remove and the
    id is no favorite any more. *)
Lemma toggle_twice_drops_duplicated_id :
  findById "31" (chromeBookmarks twiceX) = Some (0, favX)
  /\ isFavorite "31" twiceX = true
  /\ favorites (toggleFavorite "31" (toggleFavorite "31" twiceX)) = [favY]
  /\ isFavorite "31" (toggleFavorite "31" (toggleFavorite "31" twiceX)) = false
  /\ ~ ("31" ∈ ids (favorites (toggleFavorite "31" (toggleFavorite "31" twiceX)))
        <-> "31" ∈ ids (favorites twiceX)).
Proof.
  split; [reflexivity|]. split; [reflexivity|].
  split; [reflexivity|]. split; [reflexivity|].
  intros [_ H]. assert (Hin : "31" ∈ ids (favorites twiceX)) by (by left).
  apply H in Hin. vm_compute in Hin.
  apply list_elem_of_singleton in Hin. discriminate Hin.
Qed.

Lemma addToFavorites_present b m :
  bm_id b ∈ ids (favorites m) -> addToFavorites b m = m.
Proof.
  intros [[i x] Hf]%findById_is_Some. unfold addToFavorites. by rewrite Hf.
Qed.

Lemma addToFavorites_absent b m :
  bm_id b ∉ ids (favorites m) ->
  addToFavorites b m = saveFavorites (set_favorites (favorites m ++ [b]) m).
Proof. intros Hf%findById_None. unfold addToFavorites. by rewrite Hf. Qed.

Lemma ids_snoc l b : ids (l ++ [b]) = ids l ++ [bm_id b].
Proof. unfold ids. by rewrite fmap_app. Qed.

(** C6. An operation that changes the favorites list ends by handing the
    whole resulting list to the store. More precisely, an operation whose
    guard passes appends one write, the whole resulting list, and one
    whose guard fails leaves the manager, write log included, as it was:
    nothing but whole lists is ever written. *)
Theorem mutation_is_followed_by_full_write op m :
  (favorites (runOp op m) <> favorites m ->
   writes (runOp op m) = writes m ++ [favorites (runOp op m)])
  /\ (passesGuard op m = true ->
      writes (runOp op m) = writes m ++ [favorites (runOp op m)])
  /\ (passesGuard op m = false -> runOp op m = m).
Proof.
  assert (Hpass : passesGuard op m = true ->
                  writes (runOp op m) = writes m ++ [favorites (runOp op m)]).
  { destruct op as [id|b|id|d t]; simpl.
    - unfold toggleFavorite.
      destruct (findById id (chromeBookmarks m)) as [[k b]|]; [|done].
      by destruct (findById id (favorites m)) as [[i old]|].
    - unfold addToFavorites.
      by destruct (findById (bm_id b) (favorites m)) as [[i old]|].
    - unfold removeFromFavorites.
      by destruct (findById id (favorites m)) as [[i old]|].
    - unfold reorderFavorite.
      by destruct (findById d (favorites m)) as [[di x]|],
                  (findById t (favorites m)) as [[ti y]|]. }
  assert (Hfail : passesGuard op m = false -> runOp op m = m).
  { destruct op as [id|b|id|d t]; simpl.
    - unfold toggleFavorite.
      by destruct (findById id (chromeBookmarks m)) as [[k b]|].
    - unfold addToFavorites.
      by destruct (findById (bm_id b) (favorites m)) as [[i old]|].
    - unfold removeFromFavorites.
      by destruct (findById id (favorites m)) as [[i old]|].
    - unfold reorderFavorite.
      by destruct (findById d (favorites m)) as [[di x]|],
                  (findById t (favorites m)) as [[ti y]|]. }
  split; [|by split].
  intros Hchanged. destruct (passesGuard op m) eqn:Hg; [by apply Hpass|].
  by rewrite Hfail in Hchanged.
Qed.

Lemma mutation_is_followed_by_full_write_witness :
  favorites (runOp (Reorder "31" "33") xyz) <> favorites xyz
  /\ writes (runOp (Reorder "31" "33") xyz) = [[favY; favZ; favX]]
  /\ writes (runOp (Remove "32") (runOp (Reorder "31" "33") xyz))
     = [[favY; favZ; favX]; [favZ; favX]]
  /\ passesGuard (Add favX) xyz = false
  /\ runOp (Add favX) xyz = xyz.
Proof.
  assert (H1 : favorites (runOp (Reorder "31" "33") xyz) <> favorites xyz)
    by discriminate.
  assert (H2 : favorites (runOp (Remove "32") (runOp (Reorder "31" "33") xyz))
               <> favorites (runOp (Reorder "31" "33") xyz)) by discriminate.
  split; [exact H1|]. split; [|split; [|split; [reflexivity|]]].
  - exact (proj1 (mutation_is_followed_by_full_write (Reorder "31" "33") xyz) H1).
  - exact (proj1 (mutation_is_followed_by_full_write (Remove "32")
                    (runOp (Reorder "31" "33") xyz)) H2).
  - exact (proj2 (proj2 (mutation_is_followed_by_full_write (Add favX) xyz))
             eq_refl).
Defined.

(** C7. Reordering an entry onto itself leaves the list as it was;
    reordering with an id that is not in the list, and toggling an id
    that is not in the known bookmark set, leave the manager as it was,
    the write log included. Every operation is a total function: no
    error comes out. *)
Theorem invalid_arguments_are_ignored :
  (forall a m, favorites (reorderFavorite a a m) = favorites m)
  /\ (forall a b m,
        a ∉ ids (favorites m) \/ b ∉ ids (favorites m) ->
        reorderFavorite a b m = m)
  /\ (forall id m, id ∉ ids (chromeBookmarks m) -> toggleFavorite id m = m).
Proof.
  split; [|split].
  - intros a m. destruct (findById a (favorites m)) as [[i x]|] eqn:Hf.
    + rewrite (reorderFavorite_found a a m i i x x Hf Hf). simpl.
      apply spliceIn_spliceOut_same. by apply findById_Some in Hf as (? & _).
    + rewrite reorderFavorite_absent; [done|]. left. by apply findById_None.
  - intros a b m. apply reorderFavorite_absent.
  - intros id m Hf%findById_None. unfold toggleFavorite. by rewrite Hf.
Qed.

Lemma invalid_arguments_are_ignored_witness :
  ("77" ∉ ids (favorites xyz))
  /\ ("77" ∉ ids (chromeBookmarks xyz))
  /\ favorites (reorderFavorite "32" "32" xyz) = [favX; favY; favZ]
  /\ reorderFavorite "31" "77" xyz = xyz
  /\ reorderFavorite "77" "31" xyz = xyz
  /\ toggleFavorite "77" xyz = xyz
  /\ toggleFavorite "missing-id" constructor = constructor.
Proof.
  assert (H77 : forall l, l = ["31"; "32"; "33"] -> "77" ∉ l).
  { intros l -> Hin. apply list_elem_of_In in Hin. simpl in Hin.
    repeat (destruct Hin as [Hin|Hin]; [discriminate Hin|]). exact Hin. }
  assert (Hmissing : "missing-id" ∉ ids (chromeBookmarks constructor)).
  { intros Hin. inversion Hin. }
  destruct invalid_arguments_are_ignored as (Hsame & Habsent & Hunknown).
  split; [exact (H77 _ eq_refl)|]. split; [exact (H77 _ eq_refl)|].
  split; [exact (Hsame "32" xyz)|].
  split; [exact (Habsent "31" "77" xyz (or_intror (H77 _ eq_refl)))|].
  split; [exact (Habsent "77" "31" xyz (or_introl (H77 _ eq_refl)))|].
  split; [exact (Hunknown "77" xyz (H77 _ eq_refl))|].
  exact (Hunknown "missing-id" constructor Hmissing).
Defined.

(** C9. Adding appends the bookmark when no favorite has its id and does
    nothing otherwise; adding the same bookmark a second time changes
    nothing, so two adds lengthen the list by at most one. *)
Theorem add_is_idempotent b m :
  addToFavorites b (addToFavorites b m) = addToFavorites b m
  /\ length (favorites (addToFavorites b (addToFavorites b m)))
     <= S (length (favorites m))
  /\ (bm_id b ∈ ids (favorites m) -> addToFavorites b m = m)
  /\ (bm_id b ∉ ids (favorites m) ->
      favorites (addToFavorites b m) = favorites m ++ [b]).
Proof.
  assert (Hidem : addToFavorites b (addToFavorites b m) = addToFavorites b m).
  { destruct (decide (bm_id b ∈ ids (favorites m))) as [Hin|Hout].
    - by rewrite !(addToFavorites_present b m Hin).
    - rewrite (addToFavorites_absent b m Hout).
      apply addToFavorites_present. simpl. rewrite ids_snoc.
      apply elem_of_app. right. by left. }
  split; [exact Hidem|]. rewrite Hidem. split; [|split].
  - destruct (decide (bm_id b ∈ ids (favorites m))) as [Hin|Hout].
    + rewrite (addToFavorites_present b m Hin). lia.
    + rewrite (addToFavorites_absent b m Hout). simpl.
      rewrite length_app. simpl. lia.
  - apply addToFavorites_present.
  - intros Hout. by rewrite (addToFavorites_absent b m Hout).
Qed.

Lemma add_is_idempotent_witness :
  (bm_id favX ∉ ids (favorites constructor))
  /\ favorites (addToFavorites favX constructor) = [favX]
  /\ bm_id favX ∈ ids (favorites (addToFavorites favX constructor))
  /\ addToFavorites favX (addToFavorites favX constructor)
     = addToFavorites favX constructor.
Proof.
  assert (Hout : bm_id favX ∉ ids (favorites constructor)).
  { intros Hin. inversion Hin. }
  assert (Hin : bm_id favX ∈ ids (favorites (addToFavorites favX constructor))).
  { by left. }
  destruct (add_is_idempotent favX constructor) as (_ & _ & _ & Happend).
  destruct (add_is_idempotent favX (addToFavorites favX constructor))
    as (_ & _ & Hnoop & _).
  split; [exact Hout|]. split; [exact (Happend Hout)|].
  split; [exact Hin|]. exact (Hnoop Hin).
Defined.

(** C10. If no two favorites share an id, none do after a toggle, an add,
    a remove or a reorder. *)
Theorem favorite_ids_stay_distinct op m :
  NoDup (ids (favorites m)) -> NoDup (ids (favorites (runOp op m))).
Proof.
  intros Hnd.
  assert (Hout : forall i x, favorites m !! i = Some x ->
                   NoDup (ids (spliceOut i (favorites m)))).
  { intros i x Hx. unfold ids in *.
    rewrite (spliceOut_Permutation _ i x Hx), fmap_cons in Hnd.
    by apply NoDup_cons_1_2 in Hnd. }
  assert (Hsnoc : forall b, bm_id b ∉ ids (favorites m) ->
                    NoDup (ids (favorites m ++ [b]))).
  { intros b Hb. rewrite ids_snoc. apply NoDup_app. split; [done|]. split.
    - intros j Hj ->%list_elem_of_singleton. done.
    - apply NoDup_singleton. }
  destruct op as [id|b|id|d t]; simpl.
  - unfold toggleFavorite.
    destruct (findById id (chromeBookmarks m)) as [[k b]|] eqn:Hk; [|done].
    destruct (findById id (favorites m)) as [[i old]|] eqn:Hf; simpl.
    + apply findById_Some in Hf as (Hold & _). by eapply Hout.
    + apply Hsnoc. apply findById_Some in Hk as (_ & -> & _).
      by apply findById_None.
  - unfold addToFavorites.
    destruct (findById (bm_id b) (favorites m)) as [[i old]|] eqn:Hf; [done|].
    simpl. apply Hsnoc. by apply findById_None.
  - unfold removeFromFavorites.
    destruct (findById id (favorites m)) as [[i old]|] eqn:Hf; [|done].
    simpl. apply findById_Some in Hf as (Hold & _). by eapply Hout.
  - unfold reorderFavorite.
    destruct (findById d (favorites m)) as [[di x]|] eqn:Hd; [|done].
    destruct (findById t (favorites m)) as [[ti y]|] eqn:Ht; [|done].
    simpl. apply findById_Some in Hd as (Hx & _).
    unfold ids in *.
    by rewrite spliceIn_Permutation, <- (spliceOut_Permutation _ di x Hx).
Qed.

Lemma favorite_ids_stay_distinct_witness :
  NoDup (ids (favorites xyz))
  /\ NoDup (ids (favorites (runOp (Reorder "33" "31") xyz)))
  /\ NoDup (ids (favorites (runOp (Toggle "32") (runOp (Reorder "33" "31") xyz)))).
Proof.
  assert (Hnd : NoDup (ids (favorites xyz))).
  { exact (bool_decide_unpack (NoDup (ids (favorites xyz))) I). }
  pose proof (favorite_ids_stay_distinct (Reorder "33" "31") xyz Hnd) as H1.
  pose proof (favorite_ids_stay_distinct (Toggle "32") _ H1) as H2.
  split; [exact Hnd|]. split; [exact H1|exact H2].
Defined.

(** ** More on the flattener *)

Lemma ids_leaves nodes : ids (leaves nodes) = node_id <$> filter is_leaf (preorder nodes).
Proof. unfold ids, leaves. by rewrite <- list_fmap_compose. Qed.

Lemma folder_ids_listedFolders nodes :
  folder_id <$> listedFolders nodes = node_id <$> filter is_listed_folder (preorder nodes).
Proof. unfold listedFolders. by rewrite <- list_fmap_compose. Qed.

Lemma folder_ids_distinct localeCompare tree m :
  NoDup (node_id <$> preorder tree) ->
  NoDup (folder_id <$> folders (loadChromeBookmarks localeCompare (Some tree) m)).
Proof.
  intros Hnd. rewrite loadChromeBookmarks_Some. simpl.
  rewrite arraySort_Permutation, folder_ids_listedFolders.
  eapply sublist_NoDup; [exact Hnd|]. apply fmap_sublist, sublist_filter.
Qed.

(** X1. When the nodes of the tree have pairwise distinct ids, so have
    the flattened bookmarks, and so have the listed folders. *)
Theorem flattened_ids_distinct localeCompare tree m :
  NoDup (node_id <$> preorder tree) ->
  NoDup (ids (chromeBookmarks (loadChromeBookmarks localeCompare (Some tree) m)))
  /\ NoDup (folder_id <$> folders (loadChromeBookmarks localeCompare (Some tree) m)).
Proof.
  intros Hnd. split; [|by apply folder_ids_distinct].
  rewrite loadChromeBookmarks_Some. simpl.
  rewrite ids_leaves. eapply sublist_NoDup; [exact Hnd|].
  apply fmap_sublist, sublist_filter.
Qed.

Lemma flattened_ids_distinct_witness :
  NoDup (node_id <$> preorder [hostRoot])
  /\ NoDup (ids (chromeBookmarks
                  (loadChromeBookmarks codeCompare (Some [hostRoot]) constructor)))
  /\ NoDup (folder_id <$>
            folders (loadChromeBookmarks codeCompare (Some [hostRoot]) constructor)).
Proof.
  assert (Hnd : NoDup (node_id <$> preorder [hostRoot])).
  { exact (bool_decide_unpack (NoDup (node_id <$> preorder [hostRoot])) I). }
  split; [exact Hnd|].
  exact (flattened_ids_distinct codeCompare [hostRoot] constructor Hnd).
Defined.

(** X2. A refresh replaces the two lists, whatever they held and however
    the refresh before it ended, and never touches the favorites or the
    store. *)
Theorem refresh_replaces_lists localeCompare earlier tree m :
  loadChromeBookmarks localeCompare (Some tree)
    (loadChromeBookmarks localeCompare earlier m)
  = loadChromeBookmarks localeCompare (Some tree) m
  /\ chromeBookmarks (loadChromeBookmarks localeCompare (Some tree) m)
     = chromeBookmarks (loadChromeBookmarks localeCompare (Some tree) constructor)
  /\ folders (loadChromeBookmarks localeCompare (Some tree) m)
     = folders (loadChromeBookmarks localeCompare (Some tree) constructor)
  /\ favorites (loadChromeBookmarks localeCompare earlier m) = favorites m
  /\ writes (loadChromeBookmarks localeCompare earlier m) = writes m.
Proof.
  assert (Hkept : favorites (loadChromeBookmarks localeCompare earlier m) = favorites m
                  /\ writes (loadChromeBookmarks localeCompare earlier m) = writes m).
  { destruct earlier as [t0|]; [|done]. by rewrite loadChromeBookmarks_Some. }
  destruct Hkept as [Hfav Hwr].
  rewrite !loadChromeBookmarks_Some, Hfav, Hwr. done.
Qed.

(** *** Where a node's subtree sits in the pre-order *)

Lemma preorder_app l k : preorder (l ++ k) = preorder l ++ preorder k.
Proof. unfold preorder. apply flat_map_app. Qed.

Lemma preorderNode_segment node :
  forall x, x ∈ preorderNode node ->
  exists before after, preorderNode node = before ++ preorderNode x ++ after.
Proof.
  induction node as [i t u p|i t u p cs IH] using BookmarkNode_forall_ind;
    intros x Hx.
  - rewrite preorderNode_unfold in Hx. unfold descendants in Hx. simpl in Hx.
    apply list_elem_of_singleton in Hx as ->.
    exists [], []. by rewrite app_nil_r.
  - rewrite preorderNode_unfold in Hx. unfold descendants in Hx. simpl in Hx.
    apply elem_of_cons in Hx as [->|Hx].
    { exists [], []. by rewrite app_nil_r. }
    apply elem_of_preorder in Hx as (c & Hc & Hx).
    apply list_elem_of_split in Hc as (cs1 & cs2 & ->).
    apply Forall_app in IH as [_ IH]. apply Forall_cons_1 in IH as [IHc _].
    destruct (IHc x Hx) as (b & a & Hseg).
    exists (Node i t u p (Some (cs1 ++ c :: cs2)) :: preorder cs1 ++ b),
           (a ++ preorder cs2).
    rewrite (preorderNode_unfold (Node _ _ _ _ _)). unfold descendants. simpl.
    rewrite preorder_app, preorder_cons, Hseg. by rewrite <- !app_assoc.
Qed.

Lemma preorder_segment nodes x :
  x ∈ preorder nodes ->
  exists before after, preorder nodes = before ++ preorderNode x ++ after.
Proof.
  intros (c & Hc & Hx)%elem_of_preorder.
  apply list_elem_of_split in Hc as (cs1 & cs2 & ->).
  destruct (preorderNode_segment c x Hx) as (b & a & Hseg).
  exists (preorder cs1 ++ b), (a ++ preorder cs2).
  rewrite preorder_app, preorder_cons, Hseg. by rewrite <- !app_assoc.
Qed.

Lemma leaves_segment nodes x :
  x ∈ preorder nodes ->
  exists before after, leaves nodes = before ++ leaves [x] ++ after.
Proof.
  intros (b & a & Hseg)%preorder_segment.
  exists (toFlatBookmark <$> filter is_leaf b), (toFlatBookmark <$> filter is_leaf a).
  unfold leaves. rewrite Hseg, preorder_cons, app_nil_r.
  by rewrite !filter_app, !fmap_app.
Qed.

Lemma leaves_listed_folder node :
  is_listed_folder node -> leaves [node] = leaves (default [] (node_children node)).
Proof.
  intros Hlisted. rewrite leaves_node.
  unfold is_listed_folder, is_folder, is_leaf in *.
  destruct (has_children (node_children node)); [|done].
  by rewrite andb_false_r.
Qed.

(** X3. The children of a listed folder's entry are one run of
    consecutive entries of the bookmark list, in the same order, when no
    node below the folder has both a url and children. *)
Theorem folder_children_run_of_bookmarks localeCompare tree m node :
  node ∈ preorder tree ->
  is_listed_folder node ->
  Forall no_url_on_folder (descendants node) ->
  exists before after,
    chromeBookmarks (loadChromeBookmarks localeCompare (Some tree) m)
    = before ++ folder_children (pushedFolder node) ++ after.
Proof.
  intros Hin Hlisted Hwf. rewrite loadChromeBookmarks_Some. simpl.
  rewrite (collect_leaves _ Hwf), <- (leaves_listed_folder node Hlisted).
  by apply leaves_segment.
Qed.

Lemma folder_children_run_of_bookmarks_witness :
  otherWork ∈ preorder [hostRoot]
  /\ is_listed_folder otherWork
  /\ Forall no_url_on_folder (descendants otherWork)
  /\ exists before after,
       chromeBookmarks (loadChromeBookmarks codeCompare (Some [hostRoot]) constructor)
       = before ++ [toFlatBookmark bookmarkC] ++ after.
Proof.
  assert (Hin : otherWork ∈ preorder [hostRoot]).
  { apply list_elem_of_In. simpl. auto 10. }
  assert (Hlisted : is_listed_folder otherWork) by exact I.
  assert (Hwf : Forall no_url_on_folder (descendants otherWork)).
  { repeat constructor. }
  split; [exact Hin|]. split; [exact Hlisted|]. split; [exact Hwf|].
  exact (folder_children_run_of_bookmarks codeCompare [hostRoot] constructor
           otherWork Hin Hlisted Hwf).
Defined.

(** X4. The children of a listed folder nested in another folder are one
    run of consecutive children of the enclosing folder's entry, when no
    node below the enclosing folder has both a url and children. *)
Theorem nested_folder_children_run outer inner :
  inner ∈ descendants outer ->
  is_listed_folder inner ->
  Forall no_url_on_folder (descendants outer) ->
  exists before after,
    folder_children (pushedFolder outer)
    = before ++ folder_children (pushedFolder inner) ++ after.
Proof.
  intros Hin Hlisted Hwf. simpl.
  assert (Forall no_url_on_folder (descendants inner)) as Hwf_inner.
  { rewrite Forall_forall in *. intros y Hy. apply Hwf.
    by eapply descendants_in_preorder. }
  rewrite (collect_leaves _ Hwf), (collect_leaves _ Hwf_inner).
  rewrite <- (leaves_listed_folder inner Hlisted).
  by apply leaves_segment.
Qed.

Lemma nested_folder_children_run_witness :
  papers ∈ descendants reading
  /\ is_listed_folder papers
  /\ Forall no_url_on_folder (descendants reading)
  /\ folder_children (pushedFolder reading)
     = toFlatBookmark <$> [news; paperOne; paperTwo; blog]
  /\ exists before after,
       folder_children (pushedFolder reading)
       = before ++ (toFlatBookmark <$> [paperOne; paperTwo]) ++ after.
Proof.
  assert (Hin : papers ∈ descendants reading).
  { apply list_elem_of_In. simpl. auto. }
  assert (Hlisted : is_listed_folder papers) by exact I.
  assert (Hwf : Forall no_url_on_folder (descendants reading)).
  { repeat constructor. }
  split; [exact Hin|]. split; [exact Hlisted|]. split; [exact Hwf|].
  split; [reflexivity|].
  exact (nested_folder_children_run reading papers Hin Hlisted Hwf).
Defined.

Lemma collectChild_urls node :
  forall acc,
    Forall (fun b => truthy (bm_url b)) acc ->
    Forall (fun b => truthy (bm_url b)) (collectChild node acc).
Proof.
  induction node as [i t u p|i t u p cs IH] using BookmarkNode_forall_ind;
    intros acc Hacc; rewrite collectChild_unfold.
  - destruct u as [s|]; simpl; [|done].
    destruct (truthy s) eqn:Hs; [|done].
    apply Forall_app. split; [done|]. constructor; [|done]. simpl. by rewrite Hs.
  - destruct (truthy_url u) eqn:Hu.
    + apply Forall_app. split; [done|]. constructor; [|done].
      destruct u as [s|]; simpl in *; [by rewrite Hu|done].
    + unfold collectBookmarksFromFolder. revert acc Hacc.
      induction IH as [|c cs Hc _ IHcs]; intros acc Hacc; simpl; [done|].
      apply IHcs, Hc, Hacc.
Qed.

Lemma collect_urls cs :
  Forall (fun b => truthy (bm_url b)) (collectBookmarksFromFolder cs []).
Proof.
  unfold collectBookmarksFromFolder.
  assert (forall acc, Forall (fun b => truthy (bm_url b)) acc ->
            Forall (fun b => truthy (bm_url b))
              (foldl (fun acc child => collectChild child acc) acc cs)) as H.
  { induction cs as [|c cs IH]; intros acc Hacc; simpl; [done|].
    by apply IH, collectChild_urls. }
  by apply H.
Qed.

(** X5. Whatever the tree, every flattened bookmark has a url that is
    not empty, and so has every child of every folder entry. *)
Theorem flattened_urls_not_empty localeCompare tree m :
  Forall (fun b => bm_url b <> "")
    (chromeBookmarks (loadChromeBookmarks localeCompare (Some tree) m))
  /\ Forall (fun entry => Forall (fun b => bm_url b <> "") (folder_children entry))
       (folders (loadChromeBookmarks localeCompare (Some tree) m)).
Proof.
  assert (Htruthy : forall s, truthy s -> s <> "") by (by intros [|? ?]).
  rewrite loadChromeBookmarks_Some. simpl. split.
  - apply Forall_forall. intros b (node & -> & Hnode)%list_elem_of_fmap.
    apply list_elem_of_filter in Hnode as [Hleaf _].
    apply Htruthy. unfold is_leaf in Hleaf. apply andb_True in Hleaf as [Hu _].
    simpl. by destruct (node_url node).
  - rewrite arraySort_Permutation.
    apply Forall_forall. intros entry (node & -> & _)%list_elem_of_fmap.
    simpl. eapply Forall_impl; [apply collect_urls|]. intros b. apply Htruthy.
Qed.

(** ** The getters on a loaded manager *)

Lemma getFolder_Some folderId m folder :
  getFolder folderId m = Some folder ->
  folder ∈ folders m /\ folder_id folder = folderId.
Proof.
  unfold getFolder. intros ([i f] & Hfind & ->)%fmap_Some. simpl.
  apply (list_find_Some (fun f => folder_id f = folderId)) in Hfind
    as (Hf & Hid & _).
  split; [by eapply list_elem_of_lookup_2 | done].
Qed.

Lemma getFolder_None folderId m :
  getFolder folderId m = None <-> folderId ∉ folder_id <$> folders m.
Proof.
  unfold getFolder. rewrite fmap_None.
  rewrite (list_find_None (fun f => folder_id f = folderId)), Forall_forall.
  rewrite list_elem_of_fmap. split.
  - intros H (f & -> & Hf). by apply (H f).
  - intros H f Hf Hid. apply H. by exists f.
Qed.

Lemma NoDup_fmap_elem_inj {A B} (f : A -> B) (l : list A) x y :
  NoDup (f <$> l) -> x ∈ l -> y ∈ l -> f x = f y -> x = y.
Proof.
  induction l as [|z l IH]; intros Hnd Hx Hy Hxy; [inversion Hx|].
  rewrite fmap_cons in Hnd. apply NoDup_cons in Hnd as [Hz Hnd].
  apply elem_of_cons in Hx as [->|Hx]; apply elem_of_cons in Hy as [->|Hy].
  - done.
  - destruct Hz. rewrite Hxy. by apply list_elem_of_fmap_2.
  - destruct Hz. rewrite <- Hxy. by apply list_elem_of_fmap_2.
  - by apply IH.
Qed.

Lemma getFolder_unique m folder :
  NoDup (folder_id <$> folders m) ->
  folder ∈ folders m ->
  getFolder (folder_id folder) m = Some folder.
Proof.
  intros Hnd Hin.
  destruct (getFolder (folder_id folder) m) as [f|] eqn:Hget.
  - apply getFolder_Some in Hget as [Hf Hid]. f_equal.
    by eapply (NoDup_fmap_elem_inj folder_id).
  - apply getFolder_None in Hget. destruct Hget. by apply list_elem_of_fmap_2.
Qed.

(** X6. On a tree with pairwise distinct ids, opening a listed folder by
    its id finds the entry pushed for it, and with no query its
    bookmarks are the leaves below the folder, in pre-order (no node
    below it having both a url and children). *)
Theorem open_folder_shows_its_leaves (trim toLowerCase : string -> string)
  localeCompare tree m node :
  trim "" = "" ->
  NoDup (node_id <$> preorder tree) ->
  node ∈ preorder tree ->
  is_listed_folder node ->
  Forall no_url_on_folder (descendants node) ->
  getFolder (node_id node) (loadChromeBookmarks localeCompare (Some tree) m)
  = Some (pushedFolder node)
  /\ getFolderBookmarks trim toLowerCase (node_id node) ""
       (loadChromeBookmarks localeCompare (Some tree) m)
     = toFlatBookmark <$> filter is_leaf (descendants node).
Proof.
  intros Htrim Hnd Hin Hlisted Hwf.
  pose proof (folder_ids_distinct localeCompare tree m Hnd) as Hfolders.
  assert (Hget : getFolder (node_id node)
                   (loadChromeBookmarks localeCompare (Some tree) m)
                 = Some (pushedFolder node)).
  { apply (getFolder_unique _ (pushedFolder node) Hfolders).
    rewrite loadChromeBookmarks_Some. simpl. rewrite arraySort_Permutation.
    apply list_elem_of_fmap_2, list_elem_of_filter. by split. }
  split; [exact Hget|].
  unfold getFolderBookmarks. rewrite Hget. unfold filterBookmarks.
  rewrite Htrim. simpl. by apply collect_leaves.
Qed.

Lemma open_folder_shows_its_leaves_witness :
  trimSpaces "" = ""
  /\ NoDup (node_id <$> preorder [reading])
  /\ papers ∈ preorder [reading]
  /\ is_listed_folder papers
  /\ Forall no_url_on_folder (descendants papers)
  /\ getFolderBookmarks trimSpaces lowerLetters "42" ""
       (loadChromeBookmarks codeCompare (Some [reading]) constructor)
     = [toFlatBookmark paperOne; toFlatBookmark paperTwo].
Proof.
  assert (Hnd : NoDup (node_id <$> preorder [reading])).
  { exact (bool_decide_unpack (NoDup (node_id <$> preorder [reading])) I). }
  assert (Hin : papers ∈ preorder [reading]).
  { apply list_elem_of_In. simpl. auto. }
  assert (Hlisted : is_listed_folder papers) by exact I.
  assert (Hwf : Forall no_url_on_folder (descendants papers)).
  { repeat constructor. }
  split; [reflexivity|]. split; [exact Hnd|]. split; [exact Hin|].
  split; [exact Hlisted|]. split; [exact Hwf|].
  exact (proj2 (open_folder_shows_its_leaves trimSpaces lowerLetters codeCompare
                  [reading] constructor papers eq_refl Hnd Hin Hlisted Hwf)).
Defined.

(** X7. A reserved root id, or an id that no node of the tree has, opens
    no folder: [getFolder] finds nothing and [getFolderBookmarks] is
    empty, whatever the query. *)
Theorem reserved_or_unknown_id_opens_nothing (trim toLowerCase : string -> string)
  localeCompare tree m folderId :
  reserved folderId \/ folderId ∉ node_id <$> preorder tree ->
  getFolder folderId (loadChromeBookmarks localeCompare (Some tree) m) = None
  /\ forall query,
       getFolderBookmarks trim toLowerCase folderId query
         (loadChromeBookmarks localeCompare (Some tree) m) = [].
Proof.
  intros Hid.
  assert (Hnone : getFolder folderId
                    (loadChromeBookmarks localeCompare (Some tree) m) = None).
  { apply getFolder_None. rewrite loadChromeBookmarks_Some. simpl.
    rewrite arraySort_Permutation, folder_ids_listedFolders.
    intros (node & -> & Hnode)%list_elem_of_fmap.
    apply list_elem_of_filter in Hnode as [Hlisted Hin].
    destruct Hid as [Hres|Habs].
    - unfold is_listed_folder in Hlisted.
      apply andb_True in Hlisted as [_ Hr]. apply negb_True in Hr. done.
    - apply Habs. by apply list_elem_of_fmap_2. }
  split; [exact Hnone|].
  intros query. unfold getFolderBookmarks. by rewrite Hnone.
Qed.

Lemma reserved_or_unknown_id_opens_nothing_witness :
  reserved "1"
  /\ bookmarksBar ∈ preorder [hostRoot]
  /\ getFolder "1" (loadChromeBookmarks codeCompare (Some [hostRoot]) constructor) = None
  /\ getFolderBookmarks trimSpaces lowerLetters "1" "work"
       (loadChromeBookmarks codeCompare (Some [hostRoot]) constructor) = [].
Proof.
  assert (Hres : reserved "1") by exact I.
  destruct (reserved_or_unknown_id_opens_nothing trimSpaces lowerLetters codeCompare
              [hostRoot] constructor "1" (or_introl Hres)) as [Hnone Hempty].
  split; [exact Hres|]. split; [apply list_elem_of_In; simpl; auto|].
  split; [exact Hnone|exact (Hempty "work")].
Defined.

(** ** More on the favorites *)

Lemma isFavorite_true id m : isFavorite id m = true <-> id ∈ ids (favorites m).
Proof.
  unfold isFavorite, ids. rewrite bool_decide_eq_true, Exists_exists, list_elem_of_fmap.
  split; intros (b & H1 & H2); exists b; done.
Qed.

Lemma isFavorite_false id m : isFavorite id m = false <-> id ∉ ids (favorites m).
Proof.
  rewrite <- isFavorite_true. by destruct (isFavorite id m).
Qed.

Lemma isFavorite_ext id m m' :
  (id ∈ ids (favorites m) <-> id ∈ ids (favorites m')) ->
  isFavorite id m = isFavorite id m'.
Proof.
  intros H. destruct (isFavorite id m') eqn:E.
  - apply isFavorite_true, H. by apply isFavorite_true.
  - apply isFavorite_false. rewrite H. by apply isFavorite_false.
Qed.

Lemma filter_other_ids_absent id l :
  id ∉ ids l -> filter (fun b => bm_id b <> id) l = l.
Proof.
  induction l as [|y l IH]; intros Habs; [done|].
  unfold ids in Habs. rewrite fmap_cons, not_elem_of_cons in Habs.
  destruct Habs as [Hy Hl]. rewrite filter_cons.
  rewrite decide_True by done. f_equal. by apply IH.
Qed.

Lemma spliceOut_is_filter l i x :
  NoDup (ids l) -> l !! i = Some x ->
  spliceOut i l = filter (fun b => bm_id b <> bm_id x) l.
Proof.
  revert i. induction l as [|y l IH]; intros i Hnd Hx; [done|].
  unfold ids in Hnd. rewrite fmap_cons in Hnd. apply NoDup_cons in Hnd as [Hy Hnd].
  rewrite filter_cons. destruct i as [|i]; simpl in Hx.
  - injection Hx as ->. rewrite decide_False by (intros H; by apply H).
    simpl. symmetry. by apply filter_other_ids_absent.
  - rewrite decide_True.
    + simpl. f_equal. by apply IH.
    + intros Heq. apply Hy. rewrite Heq.
      apply list_elem_of_fmap_2. by eapply list_elem_of_lookup_2.
Qed.

(** X8. Reordering never loses, adds or duplicates an entry: the list
    after it is a permutation of the list before, of the same length,
    whatever the two ids. *)
Theorem reorder_is_a_permutation d t m :
  favorites (reorderFavorite d t m) ≡ₚ favorites m
  /\ length (favorites (reorderFavorite d t m)) = length (favorites m)
  /\ chromeBookmarks (reorderFavorite d t m) = chromeBookmarks m.
Proof.
  assert (Hperm : favorites (reorderFavorite d t m) ≡ₚ favorites m
                  /\ chromeBookmarks (reorderFavorite d t m) = chromeBookmarks m).
  { unfold reorderFavorite.
    destruct (findById d (favorites m)) as [[di x]|] eqn:Hd; [|done].
    destruct (findById t (favorites m)) as [[ti y]|] eqn:Ht; [|done].
    simpl. split; [|done]. apply findById_Some in Hd as (Hx & _).
    by rewrite spliceIn_Permutation, <- (spliceOut_Permutation _ di x Hx). }
  destruct Hperm as [Hperm Hcb]. split; [exact Hperm|]. split; [|exact Hcb].
  by rewrite Hperm.
Qed.

Lemma removeFromFavorites_filter id m :
  NoDup (ids (favorites m)) ->
  favorites (removeFromFavorites id m)
  = filter (fun b => bm_id b <> id) (favorites m).
Proof.
  intros Hnd. unfold removeFromFavorites.
  destruct (findById id (favorites m)) as [[i x]|] eqn:Hf; simpl.
  - apply findById_Some in Hf as (Hx & <- & _). by apply spliceOut_is_filter.
  - symmetry. apply filter_other_ids_absent. by apply findById_None.
Qed.

Lemma not_in_ids_filter id l : id ∉ ids (filter (fun b => bm_id b <> id) l).
Proof.
  unfold ids. intros (b & Hid & Hb)%list_elem_of_fmap.
  apply list_elem_of_filter in Hb as [Hne _]. by apply Hne.
Qed.

(** X9. On a list with pairwise distinct ids, removing an id leaves
    exactly the entries with another id, in their order, and the id is
    no favorite afterwards. *)
Theorem remove_keeps_the_other_ids id m :
  NoDup (ids (favorites m)) ->
  favorites (removeFromFavorites id m)
  = filter (fun b => bm_id b <> id) (favorites m)
  /\ isFavorite id (removeFromFavorites id m) = false.
Proof.
  intros Hnd. pose proof (removeFromFavorites_filter id m Hnd) as Hfilter.
  split; [exact Hfilter|].
  apply isFavorite_false. rewrite Hfilter. apply not_in_ids_filter.
Qed.

Lemma remove_keeps_the_other_ids_witness :
  NoDup (ids (favorites xyz))
  /\ favorites (removeFromFavorites "32" xyz) = [favX; favZ]
  /\ isFavorite "32" (removeFromFavorites "32" xyz) = false.
Proof.
  assert (Hnd : NoDup (ids (favorites xyz))).
  { exact (bool_decide_unpack (NoDup (ids (favorites xyz))) I). }
  destruct (remove_keeps_the_other_ids "32" xyz Hnd) as [Hfilter Hgone].
  split; [exact Hnd|]. split; [|exact Hgone].
  rewrite Hfilter. reflexivity.
Defined.

(** X10. Adding a bookmark whose id is no favorite and removing that id
    again gives back the list as it was; the store was handed the longer
    list, then the original one. *)
Theorem add_then_remove_restores b m :
  bm_id b ∉ ids (favorites m) ->
  favorites (removeFromFavorites (bm_id b) (addToFavorites b m)) = favorites m
  /\ writes (removeFromFavorites (bm_id b) (addToFavorites b m))
     = writes m ++ [favorites m ++ [b]; favorites m].
Proof.
  intros Habs. rewrite (addToFavorites_absent b m Habs).
  unfold removeFromFavorites. simpl.
  rewrite (findById_snoc_absent (bm_id b) (favorites m) b Habs eq_refl). simpl.
  rewrite spliceOut_snoc. split; [done|]. by rewrite <- app_assoc.
Qed.

Lemma add_then_remove_restores_witness :
  (bm_id favZ ∉ ids [favX; favY])
  /\ favorites (removeFromFavorites "33"
                  (addToFavorites favZ (set_favorites [favX; favY] xyz)))
     = [favX; favY].
Proof.
  assert (Habs : bm_id favZ ∉ ids (favorites (set_favorites [favX; favY] xyz))).
  { intros Hin. apply list_elem_of_In in Hin. simpl in Hin.
    repeat (destruct Hin as [Hin|Hin]; [discriminate Hin|]). exact Hin. }
  split; [exact Habs|].
  exact (proj1 (add_then_remove_restores favZ (set_favorites [favX; favY] xyz) Habs)).
Defined.

(** X11. On a list with pairwise distinct ids, toggling a known id flips
    the star of that id and of no other id. *)
Theorem toggle_flips_one_star id m k b :
  findById id (chromeBookmarks m) = Some (k, b) ->
  NoDup (ids (favorites m)) ->
  isFavorite id (toggleFavorite id m) = negb (isFavorite id m)
  /\ forall other, other <> id ->
       isFavorite other (toggleFavorite id m) = isFavorite other m.
Proof.
  intros Hk Hnd.
  assert (Hb : bm_id b = id) by (by apply findById_Some in Hk as (_ & ? & _)).
  destruct (findById id (favorites m)) as [[i old]|] eqn:Hf.
  - destruct (toggleFavorite_present id m k b i old Hk Hf) as [Hfav _].
    apply findById_Some in Hf as (Hold & Hid & _). split.
    + assert (isFavorite id m = true) as ->.
      { apply isFavorite_true. rewrite <- Hid. apply list_elem_of_fmap_2.
        by eapply list_elem_of_lookup_2. }
      apply isFavorite_false. rewrite Hfav, <- Hid.
      by apply ids_spliceOut_absent.
    + intros other Hother. apply isFavorite_ext. rewrite Hfav. unfold ids.
      rewrite (spliceOut_Permutation (favorites m) i old Hold) at 2.
      rewrite fmap_cons, elem_of_cons. split; [tauto|].
      intros [Heq|H]; [|done]. destruct Hother. by rewrite Heq.
  - destruct (toggleFavorite_not_present id m k b Hk Hf) as [Hfav _].
    apply findById_None in Hf. split.
    + assert (isFavorite id m = false) as -> by (by apply isFavorite_false).
      apply isFavorite_true. rewrite Hfav, ids_snoc, elem_of_app.
      right. rewrite Hb. by left.
    + intros other Hother. apply isFavorite_ext.
      rewrite Hfav, ids_snoc, elem_of_app, list_elem_of_singleton, Hb. tauto.
Qed.

Lemma toggle_flips_one_star_witness :
  findById "32" (chromeBookmarks xyz) = Some (1, favY)
  /\ NoDup (ids (favorites xyz))
  /\ isFavorite "32" xyz = true
  /\ isFavorite "32" (toggleFavorite "32" xyz) = false
  /\ isFavorite "31" (toggleFavorite "32" xyz) = true.
Proof.
  assert (Hk : findById "32" (chromeBookmarks xyz) = Some (1, favY)) by reflexivity.
  assert (Hnd : NoDup (ids (favorites xyz))).
  { exact (bool_decide_unpack (NoDup (ids (favorites xyz))) I). }
  destruct (toggle_flips_one_star "32" xyz 1 favY Hk Hnd) as [Hflip Hother].
  split; [exact Hk|]. split; [exact Hnd|]. split; [reflexivity|].
  split; [exact Hflip|].
  rewrite (Hother "31"); [reflexivity|discriminate].
Defined.

Lemma runOp_writes op m :
  runOp op m = m \/ writes (runOp op m) = writes m ++ [favorites (runOp op m)].
Proof.
  destruct op as [id|b|id|d t]; simpl.
  - unfold toggleFavorite.
    destruct (findById id (chromeBookmarks m)) as [[k b]|]; [|by left].
    destruct (findById id (favorites m)) as [[i old]|]; by right.
  - unfold addToFavorites.
    destruct (findById (bm_id b) (favorites m)) as [[i old]|]; [by left|by right].
  - unfold removeFromFavorites.
    destruct (findById id (favorites m)) as [[i old]|]; [by right|by left].
  - unfold reorderFavorite.
    destruct (findById d (favorites m)) as [[di x]|]; [|by left].
    destruct (findById t (favorites m)) as [[ti y]|]; [by right|by left].
Qed.

Lemma runEvent_in_step localeCompare before m e :
  default [] (storeAfter before m) = favorites m ->
  default [] (storeAfter before (runEvent localeCompare m e))
  = favorites (runEvent localeCompare m e).
Proof.
  intros Hinv. destruct e as [op|bookmarkTree]; simpl.
  - destruct (runOp_writes op m) as [->|Hw]; [done|].
    unfold storeAfter. by rewrite Hw, last_snoc.
  - unfold storeAfter in *. destruct bookmarkTree as [tree|]; [|done].
    by rewrite loadChromeBookmarks_Some.
Qed.

(** X12. From a manager that loaded its favorites from the store, after
    any run of mutators and refreshes, the store holds the list the
    manager holds: loading the favorites again changes nothing. *)
Theorem store_holds_the_favorites localeCompare before events :
  let m := runEvents localeCompare events
             (loadFavorites (Resolved before) constructor) in
  favorites (loadFavorites (Resolved (storeAfter before m)) m) = favorites m.
Proof.
  simpl. unfold runEvents.
  assert (forall m0, default [] (storeAfter before m0) = favorites m0 ->
            default [] (storeAfter before (foldl (runEvent localeCompare) m0 events))
            = favorites (foldl (runEvent localeCompare) m0 events)) as Hrun.
  { induction events as [|e events IH]; intros m0 Hinv; simpl; [done|].
    by apply IH, runEvent_in_step. }
  apply Hrun. unfold storeAfter. simpl. by destruct before.
Qed.

(** X13. The two loads that [load] starts together commute: the manager
    they leave does not depend on which one settles first, whether they
    resolve or reject. *)
Theorem loads_commute localeCompare bookmarkTree stored m :
  loadFavorites stored (loadChromeBookmarks localeCompare bookmarkTree m)
  = loadChromeBookmarks localeCompare bookmarkTree (loadFavorites stored m).
Proof.
  destruct stored as [favoriteBookmarks|], bookmarkTree as [tree|]; try done.
  by rewrite !loadChromeBookmarks_Some.
Qed.

Lemma findById_leaf tree leaf :
  NoDup (node_id <$> preorder tree) ->
  leaf ∈ preorder tree ->
  is_leaf leaf ->
  exists k, findById (node_id leaf) (leaves tree) = Some (k, toFlatBookmark leaf).
Proof.
  intros Hnd Hin Hleaf.
  assert (Hmem : leaf ∈ filter is_leaf (preorder tree)).
  { by apply list_elem_of_filter. }
  assert (Hnd' : NoDup (node_id <$> filter is_leaf (preorder tree))).
  { eapply sublist_NoDup; [exact Hnd|]. apply fmap_sublist, sublist_filter. }
  destruct (findById (node_id leaf) (leaves tree)) as [[k b]|] eqn:Hf.
  - exists k. do 2 f_equal.
    apply findById_Some in Hf as (Hb & Hid & _).
    apply list_elem_of_lookup_2 in Hb. unfold leaves in Hb.
    apply list_elem_of_fmap in Hb as (node & -> & Hnode).
    f_equal. by eapply (NoDup_fmap_elem_inj node_id).
  - apply findById_None in Hf. destruct Hf. rewrite ids_leaves.
    by apply list_elem_of_fmap_2.
Qed.

(** X14. After a refresh from a tree with pairwise distinct ids, toggling
    the id of a leaf that is no favorite appends that leaf, flattened,
    to the favorites. *)
Theorem toggle_after_refresh_adds_the_leaf localeCompare tree m leaf :
  NoDup (node_id <$> preorder tree) ->
  leaf ∈ preorder tree ->
  is_leaf leaf ->
  node_id leaf ∉ ids (favorites m) ->
  favorites (toggleFavorite (node_id leaf)
               (loadChromeBookmarks localeCompare (Some tree) m))
  = favorites m ++ [toFlatBookmark leaf].
Proof.
  intros Hnd Hin Hleaf Habs.
  destruct (findById_leaf tree leaf Hnd Hin Hleaf) as [k Hk].
  rewrite loadChromeBookmarks_Some.
  apply findById_None in Habs.
  by destruct (toggleFavorite_not_present (node_id leaf)
                 (mkManager (leaves tree)
                    (arraySort (compareFolders localeCompare) (listedFolders tree))
                    (favorites m) (writes m)) k (toFlatBookmark leaf) Hk Habs).
Qed.

Lemma toggle_after_refresh_adds_the_leaf_witness :
  NoDup (node_id <$> preorder [hostRoot])
  /\ bookmarkC ∈ preorder [hostRoot]
  /\ is_leaf bookmarkC
  /\ (node_id bookmarkC ∉ ids (favorites xyz))
  /\ favorites (toggleFavorite "9" (loadChromeBookmarks codeCompare (Some [hostRoot]) xyz))
     = [favX; favY; favZ; toFlatBookmark bookmarkC].
Proof.
  assert (Hnd : NoDup (node_id <$> preorder [hostRoot])).
  { exact (bool_decide_unpack (NoDup (node_id <$> preorder [hostRoot])) I). }
  assert (Hin : bookmarkC ∈ preorder [hostRoot]).
  { apply list_elem_of_In. simpl. auto 10. }
  assert (Hleaf : is_leaf bookmarkC) by exact I.
  assert (Habs : node_id bookmarkC ∉ ids (favorites xyz)).
  { intros H. apply list_elem_of_In in H. simpl in H.
    repeat (destruct H as [H|H]; [discriminate H|]). exact H. }
  split; [exact Hnd|]. split; [exact Hin|]. split; [exact Hleaf|].
  split; [exact Habs|].
  exact (toggle_after_refresh_adds_the_leaf codeCompare [hostRoot] xyz bookmarkC
           Hnd Hin Hleaf Habs).
Defined.

(** ** Deleting, and what the favorites view shows *)

(** X15. Deleting a bookmark takes its id off the favorites only when
    the host removed the bookmark: a refused removal is rethrown and
    leaves the manager, favorites and store included, as it was. After a
    removal, on favorites with pairwise distinct ids, the id is no
    favorite, the other favorites keep their order, and once the
    refreshed tree has no node with the id, toggling it does nothing. *)
Theorem delete_bookmark_drops_the_favorite localeCompare bookmarkTree id m :
  NoDup (ids (favorites m)) ->
  deleteBookmark localeCompare false bookmarkTree id m = Threw m
  /\ exists m',
       deleteBookmark localeCompare true bookmarkTree id m = Returned m'
       /\ isFavorite id m' = false
       /\ favorites m' = filter (fun b => bm_id b <> id) (favorites m)
       /\ forall tree,
            bookmarkTree = Some tree ->
            id ∉ node_id <$> preorder tree ->
            toggleFavorite id m' = m'.
Proof.
  intros Hnd. split; [reflexivity|].
  exists (removeFromFavorites id (loadChromeBookmarks localeCompare bookmarkTree m)).
  split; [reflexivity|].
  assert (Hfav : favorites (loadChromeBookmarks localeCompare bookmarkTree m)
                 = favorites m).
  { destruct bookmarkTree as [tree|]; [|done]. by rewrite loadChromeBookmarks_Some. }
  rewrite <- Hfav in Hnd.
  pose proof (removeFromFavorites_filter id _ Hnd) as Hfilter.
  split; [apply isFavorite_false; rewrite Hfilter; apply not_in_ids_filter|].
  split; [by rewrite Hfilter, Hfav|].
  intros tree -> Habs. unfold toggleFavorite.
  assert (findById id (chromeBookmarks
            (removeFromFavorites id
               (loadChromeBookmarks localeCompare (Some tree) m))) = None) as ->.
  { apply findById_None.
    assert (chromeBookmarks (removeFromFavorites id
              (loadChromeBookmarks localeCompare (Some tree) m)) = leaves tree) as ->.
    { unfold removeFromFavorites.
      destruct (findById id _) as [[i x]|]; by rewrite loadChromeBookmarks_Some. }
    rewrite ids_leaves. intros (node & -> & Hnode)%list_elem_of_fmap.
    apply list_elem_of_filter in Hnode as [_ Hnode].
    apply Habs. by apply list_elem_of_fmap_2. }
  reflexivity.
Qed.

Lemma delete_bookmark_drops_the_favorite_witness :
  NoDup (ids (favorites xyz))
  /\ deleteBookmark codeCompare false (Some [hostRoot]) "32" xyz = Threw xyz
  /\ favorites (managerOf (deleteBookmark codeCompare true (Some [hostRoot]) "32" xyz))
     = [favX; favZ]
  /\ favorites (managerOf (deleteBookmark codeCompare true None "32" xyz))
     = [favX; favZ].
Proof.
  assert (Hnd : NoDup (ids (favorites xyz))).
  { exact (bool_decide_unpack (NoDup (ids (favorites xyz))) I). }
  destruct (delete_bookmark_drops_the_favorite codeCompare (Some [hostRoot]) "32"
              xyz Hnd) as [Hthrew _].
  split; [exact Hnd|]. split; [exact Hthrew|]. split; reflexivity.
Defined.

Lemma filterBookmarks_subseteq (trim toLowerCase : string -> string) l query b :
  b ∈ filterBookmarks trim toLowerCase l query -> b ∈ l.
Proof.
  unfold filterBookmarks. destruct (negb (truthy (trim query))); [done|].
  by intros [_ ?]%list_elem_of_filter.
Qed.

Lemma cards_bookmarks (star : FlatBookmark -> bool) l :
  ((fun bookmark => (bookmark, star bookmark)) <$> l).*1 = l.
Proof. induction l as [|b l IH]; simpl; [done|]. by f_equal. Qed.

(** X16. The favorites view shows the empty state exactly when the
    search leaves no favorite; otherwise it shows one card per favorite
    the search kept, in order, and every card carries the star. *)
Theorem favorites_view_is_all_starred (trim toLowerCase : string -> string) query m :
  match displayFavorites trim toLowerCase query m with
  | EmptyState _ => getFavorites trim toLowerCase query m = []
  | Cards cards =>
      cards <> []
      /\ cards.*1 = getFavorites trim toLowerCase query m
      /\ Forall (fun card => card.2 = true) cards
  end.
Proof.
  unfold displayFavorites, renderBookmarksGrid.
  pose proof (filterBookmarks_subseteq trim toLowerCase (favorites m) query) as Hsub.
  fold (getFavorites trim toLowerCase query m) in Hsub.
  destruct (getFavorites trim toLowerCase query m) as [|b l] eqn:Hget; [done|].
  split; [done|]. split.
  - apply (cards_bookmarks (fun bookmark => isFavorite (bm_id bookmark) m)).
  - apply Forall_fmap, Forall_forall. intros c Hc. simpl.
    apply isFavorite_true. apply list_elem_of_fmap_2, Hsub, Hc.
Qed.

(** ** The reading list manager: the properties *)

Section ReadingListFacts.

Import ReadingList.

Context {Api : Type}.
Variable query : Api -> Settled (list Entry).
Variable addEntry : string -> string -> Api -> Settled Api.
Variable removeEntry : string -> Api -> Settled Api.

Lemma exists_true url (m : ReadingList.Manager) :
  exists_ url m = true <-> url ∈ urls m.
Proof.
  unfold exists_, urls.
  rewrite bool_decide_eq_true, Exists_exists, list_elem_of_fmap.
  split; intros (item & H1 & H2); exists item; done.
Qed.

Lemma exists_false url (m : ReadingList.Manager) :
  exists_ url m = false <-> url ∉ urls m.
Proof. rewrite <- exists_true. by destruct (exists_ url m). Qed.

Lemma onStore_stored (stored : option (list Item)) :
  onStore (mkWorld (mkHost (Api:=Api) None (Resolved stored))
             (ReadingList.mkManager (default [] stored) false)).
Proof. split; [done|]. split; [done|]. by exists stored. Qed.

Lemma onStore_inv (w : World Api) :
  onStore w ->
  exists stored,
    w = mkWorld (mkHost None (Resolved stored))
          (ReadingList.mkManager (default [] stored) false).
Proof.
  destruct w as [[api store] [its uses]].
  intros (Hapi & Huses & stored & Hstore & Hitems). simpl in *. subst.
  by exists stored.
Qed.

Lemma load_onStore (w : World Api) :
  onStore w -> load query w = ReadingList.Returned w.
Proof. by intros (stored & ->)%onStore_inv. Qed.

Lemma add_onStore now bookmark (w : World Api) :
  onStore w ->
  add query addEntry now bookmark w =
  ReadingList.Returned
    (if exists_ (bm_url bookmark) (manager w) then w
     else
       let pushed :=
         items (manager w)
         ++ [mkItem (bm_url bookmark) (bm_title bookmark) (bm_url bookmark) None now] in
       mkWorld (mkHost None (Resolved (Some pushed))) (ReadingList.mkManager pushed false)).
Proof.
  intros (stored & ->)%onStore_inv. unfold add. simpl.
  by destruct (exists_ (bm_url bookmark) _).
Qed.

Lemma remove_onStore url (w : World Api) :
  onStore w ->
  remove query removeEntry url w =
  ReadingList.Returned
    (let filtered := filter (fun item => item_url item <> url) (items (manager w)) in
     mkWorld (mkHost None (Resolved (Some filtered))) (ReadingList.mkManager filtered false)).
Proof. by intros (stored & ->)%onStore_inv. Qed.

Lemma filter_other_urls_absent url (l : list Item) :
  url ∉ item_url <$> l -> filter (fun item => item_url item <> url) l = l.
Proof.
  induction l as [|item l IH]; intros Habs; [done|].
  rewrite fmap_cons, not_elem_of_cons in Habs. destruct Habs as [Hne Hl].
  rewrite filter_cons, decide_True by done. f_equal. by apply IH.
Qed.

(** X17. On the store (no host reading list, a working store the manager
    loaded from, with the key present or absent), adding a bookmark
    returns; the url is in the list afterwards, appended as a new item
    with the url as its id when it was not there and the list left alone
    when it was; store and list agree again; a second add of the
    bookmark, at any time, changes nothing; and urls that were pairwise
    distinct stay so. *)
Theorem reading_add_on_store now later bookmark (w : World Api) :
  onStore w ->
  exists w',
    add query addEntry now bookmark w = ReadingList.Returned w'
    /\ onStore w'
    /\ exists_ (bm_url bookmark) (manager w') = true
    /\ items (manager w') =
         (if exists_ (bm_url bookmark) (manager w) then items (manager w)
          else items (manager w)
               ++ [mkItem (bm_url bookmark) (bm_title bookmark) (bm_url bookmark)
                     None now])
    /\ (exists_ (bm_url bookmark) (manager w) = true -> w' = w)
    /\ (exists_ (bm_url bookmark) (manager w) = false ->
        storage (host w') = Resolved (Some (items (manager w'))))
    /\ add query addEntry later bookmark w' = ReadingList.Returned w'
    /\ (NoDup (urls (manager w)) -> NoDup (urls (manager w'))).
Proof.
  intros Hon. rewrite (add_onStore now bookmark w Hon).
  destruct (exists_ (bm_url bookmark) (manager w)) eqn:Hex.
  - exists w. split; [done|]. split; [done|]. split; [done|]. split; [done|].
    split; [done|]. split; [done|].
    split; [|done]. by rewrite (add_onStore later bookmark w Hon), Hex.
  - eexists. split; [reflexivity|]. simpl.
    pose proof (onStore_stored
                  (Some (items (manager w)
                         ++ [mkItem (bm_url bookmark) (bm_title bookmark)
                               (bm_url bookmark) None now]))) as Hon'.
    simpl in Hon'.
    assert (Hin : exists_ (bm_url bookmark)
              (ReadingList.mkManager
                 (items (manager w)
                  ++ [mkItem (bm_url bookmark) (bm_title bookmark)
                        (bm_url bookmark) None now]) false) = true).
    { apply exists_true. unfold urls. simpl. rewrite fmap_app, elem_of_app.
      right. by left. }
    split; [exact Hon'|]. split; [exact Hin|]. split; [done|].
    split; [done|]. split; [done|]. split.
    + rewrite (add_onStore later bookmark _ Hon'). simpl. by rewrite Hin.
    + intros Hnd. unfold urls in *. simpl. rewrite fmap_app. apply NoDup_app.
      split; [done|]. split; [|apply NoDup_singleton].
      intros url Hurl ->%list_elem_of_singleton.
      apply exists_false in Hex. by apply Hex.
Qed.

(** X18. On the store (key present or absent), removing a url returns
    and leaves exactly the items with another url, in their order,
    however many items had the url; the url is not in the list
    afterwards, and the store is handed the new list, also when no item
    had the url. *)
Theorem reading_remove_on_store url (w : World Api) :
  onStore w ->
  exists w',
    remove query removeEntry url w = ReadingList.Returned w'
    /\ onStore w'
    /\ items (manager w') = filter (fun item => item_url item <> url) (items (manager w))
    /\ exists_ url (manager w') = false
    /\ storage (host w') = Resolved (Some (items (manager w')))
    /\ (exists_ url (manager w) = false -> manager w' = manager w).
Proof.
  intros Hon. rewrite (remove_onStore url w Hon).
  eexists. split; [reflexivity|]. simpl.
  split; [apply (onStore_stored (Some _))|]. split; [done|]. split.
  - apply exists_false. unfold urls. simpl.
    intros (item & Hurl & Hitem)%list_elem_of_fmap.
    apply list_elem_of_filter in Hitem as [Hne _]. by apply Hne.
  - split; [done|]. intros Hex%exists_false.
    rewrite (filter_other_urls_absent url _ Hex).
    apply onStore_inv in Hon as (stored & ->). done.
Qed.

(** X19. On the store, adding a bookmark whose url is not in the list
    and removing that url again returns with the manager as it was and
    with the store holding its list: the world is as it was when the key
    was in the store, and where the key was absent the store now holds
    the empty list. *)
Theorem reading_add_then_remove_restores now bookmark (w : World Api) :
  onStore w ->
  exists_ (bm_url bookmark) (manager w) = false ->
  exists w',
    remove query removeEntry (bm_url bookmark)
      (worldOf (add query addEntry now bookmark w))
    = ReadingList.Returned w'
    /\ manager w' = manager w
    /\ readingList (host w') = None
    /\ storage (host w') = Resolved (Some (items (manager w)))
    /\ (forall present, storage (host w) = Resolved (Some present) -> w' = w)
    /\ (storage (host w) = Resolved None ->
        items (manager w) = [] /\ storage (host w') = Resolved (Some [])).
Proof.
  intros Hon Hex. rewrite (add_onStore now bookmark w Hon), Hex. simpl.
  rewrite remove_onStore by apply (onStore_stored (Some _)). simpl.
  assert (filter (fun item => item_url item <> bm_url bookmark)
            (items (manager w)
             ++ [mkItem (bm_url bookmark) (bm_title bookmark) (bm_url bookmark)
                   None now])
          = items (manager w)) as ->.
  { rewrite filter_app, filter_cons. simpl.
    rewrite decide_False by (intros H; by apply H).
    rewrite filter_nil, app_nil_r.
    apply filter_other_urls_absent. by apply exists_false in Hex. }
  eexists. split; [reflexivity|]. simpl.
  apply onStore_inv in Hon as (stored & ->). simpl.
  split; [done|]. split; [done|]. split; [done|]. split.
  - intros present [= ->]. done.
  - intros [= ->]. done.
Qed.

(** X20. While the host's reading list is in use, neither [save] nor
    [add] nor [remove] writes the key-value store, however the host's
    calls settle. *)
Theorem reading_api_mode_leaves_store_alone now bookmark url (w : World Api) api :
  usesChromeAPI (manager w) = true ->
  readingList (host w) = Some api ->
  save w = w
  /\ storage (host (worldOf (add query addEntry now bookmark w))) = storage (host w)
  /\ storage (host (worldOf (remove query removeEntry url w))) = storage (host w).
Proof.
  destruct w as [[rl store] [its uses]]. simpl. intros -> ->.
  assert (Hload : forall w' : World Api,
            storage (host (worldOf (load query w'))) = storage (host w')).
  { intros [[rl' store'] m']. unfold load, loadFromStorage. simpl.
    destruct rl' as [a|]; [destruct (query a)|]; destruct store'; done. }
  split; [reflexivity|]. unfold add, remove. simpl. split.
  - destruct (addEntry (bm_title bookmark) (bm_url bookmark) api); [|done].
    by rewrite Hload.
  - destruct (removeEntry url api); [|done]. by rewrite Hload.
Qed.

(** X21. Without a host reading list and with a store that rejects,
    [load] throws and changes nothing; [add] of a url that is not in the
    list throws as well, yet the list in memory already holds the new
    item, and [remove] throws with the list in memory already
    filtered. *)
Theorem reading_on_rejecting_store now bookmark url (w : World Api) :
  readingList (host w) = None ->
  storage (host w) = Rejected ->
  usesChromeAPI (manager w) = false ->
  load query w = ReadingList.Threw w
  /\ (exists_ (bm_url bookmark) (manager w) = false ->
      exists w',
        add query addEntry now bookmark w = ReadingList.Threw w'
        /\ host w' = host w
        /\ items (manager w') =
             items (manager w)
             ++ [mkItem (bm_url bookmark) (bm_title bookmark) (bm_url bookmark)
                   None now])
  /\ exists w',
       remove query removeEntry url w = ReadingList.Threw w'
       /\ host w' = host w
       /\ items (manager w') = filter (fun item => item_url item <> url) (items (manager w)).
Proof.
  destruct w as [[rl store] [its uses]]. simpl. intros -> -> ->.
  split; [reflexivity|]. split.
  - intros Hex. unfold add. simpl. rewrite Hex. eexists. by split.
  - eexists. by split.
Qed.

End ReadingListFacts.

Lemma reading_add_on_store_witness :
  ReadingList.onStore freshStoreWorld
  /\ ReadingList.onStore onStoreWorld
  /\ ReadingList.add sampleQuery sampleAddEntry 1000 favX freshStoreWorld
     = ReadingList.Returned onStoreWorld
  /\ ReadingList.items
       (ReadingList.manager
          (ReadingList.worldOf
             (ReadingList.add sampleQuery sampleAddEntry 2000 favY onStoreWorld)))
     = [itemX; ReadingList.mkItem "https://y.example/" "Y" "https://y.example/" None 2000]
  /\ ReadingList.add sampleQuery sampleAddEntry 3000 favX onStoreWorld
     = ReadingList.Returned onStoreWorld.
Proof.
  assert (Hfresh : ReadingList.onStore freshStoreWorld).
  { split; [done|]. split; [done|]. by exists None. }
  assert (Hon : ReadingList.onStore onStoreWorld).
  { split; [done|]. split; [done|]. by exists (Some [itemX]). }
  destruct (reading_add_on_store sampleQuery sampleAddEntry 1000 1500 favX
              freshStoreWorld Hfresh) as (w0 & Hadd0 & _).
  destruct (reading_add_on_store sampleQuery sampleAddEntry 2000 2500 favY
              onStoreWorld Hon) as (w1 & Hadd1 & _ & _ & Hitems1 & _).
  split; [exact Hfresh|]. split; [exact Hon|]. split; [reflexivity|]. split.
  - rewrite Hadd1. simpl. rewrite Hitems1. reflexivity.
  - reflexivity.
Defined.

Lemma reading_remove_on_store_witness :
  ReadingList.onStore onStoreWorld
  /\ ReadingList.onStore freshStoreWorld
  /\ ReadingList.remove sampleQuery sampleRemoveEntry "https://x.example/" onStoreWorld
     = ReadingList.Returned
         (ReadingList.mkWorld (ReadingList.mkHost None (Resolved (Some [])))
            (ReadingList.mkManager [] false))
  /\ ReadingList.remove sampleQuery sampleRemoveEntry "https://x.example/" freshStoreWorld
     = ReadingList.Returned
         (ReadingList.mkWorld (ReadingList.mkHost None (Resolved (Some [])))
            (ReadingList.mkManager [] false)).
Proof.
  assert (Hfresh : ReadingList.onStore freshStoreWorld).
  { split; [done|]. split; [done|]. by exists None. }
  assert (Hon : ReadingList.onStore onStoreWorld).
  { split; [done|]. split; [done|]. by exists (Some [itemX]). }
  destruct (reading_remove_on_store sampleQuery sampleRemoveEntry "https://x.example/"
              onStoreWorld Hon) as (w' & Hremove & _).
  destruct (reading_remove_on_store sampleQuery sampleRemoveEntry "https://x.example/"
              freshStoreWorld Hfresh) as (w'' & Hremove' & _).
  split; [exact Hon|]. split; [exact Hfresh|]. split; reflexivity.
Defined.

Lemma reading_add_then_remove_restores_witness :
  ReadingList.onStore onStoreWorld
  /\ ReadingList.exists_ (bm_url favY) (ReadingList.manager onStoreWorld) = false
  /\ ReadingList.remove sampleQuery sampleRemoveEntry (bm_url favY)
       (ReadingList.worldOf
          (ReadingList.add sampleQuery sampleAddEntry 2000 favY onStoreWorld))
     = ReadingList.Returned onStoreWorld
  /\ ReadingList.onStore freshStoreWorld
  /\ ReadingList.exists_ (bm_url favY) (ReadingList.manager freshStoreWorld) = false
  /\ ReadingList.remove sampleQuery sampleRemoveEntry (bm_url favY)
       (ReadingList.worldOf
          (ReadingList.add sampleQuery sampleAddEntry 2000 favY freshStoreWorld))
     = ReadingList.Returned
         (ReadingList.mkWorld (ReadingList.mkHost None (Resolved (Some [])))
            (ReadingList.mkManager [] false)).
Proof.
  assert (Hfresh : ReadingList.onStore freshStoreWorld).
  { split; [done|]. split; [done|]. by exists None. }
  assert (Hon : ReadingList.onStore onStoreWorld).
  { split; [done|]. split; [done|]. by exists (Some [itemX]). }
  assert (Hex : ReadingList.exists_ (bm_url favY) (ReadingList.manager onStoreWorld)
                = false) by reflexivity.
  assert (Hex' : ReadingList.exists_ (bm_url favY)
                   (ReadingList.manager freshStoreWorld) = false) by reflexivity.
  destruct (reading_add_then_remove_restores sampleQuery sampleAddEntry
              sampleRemoveEntry 2000 favY onStoreWorld Hon Hex)
    as (w1 & Hback & _ & _ & _ & Hsame & _).
  destruct (reading_add_then_remove_restores sampleQuery sampleAddEntry
              sampleRemoveEntry 2000 favY freshStoreWorld Hfresh Hex')
    as (w2 & Hback' & _).
  split; [exact Hon|]. split; [exact Hex|].
  split; [rewrite Hback; f_equal; exact (Hsame [itemX] eq_refl)|].
  split; [exact Hfresh|]. split; [exact Hex'|]. reflexivity.
Defined.

Lemma reading_api_mode_leaves_store_alone_witness :
  ReadingList.usesChromeAPI (ReadingList.manager onApiWorld) = true
  /\ ReadingList.storage
       (ReadingList.host
          (ReadingList.worldOf
             (ReadingList.add sampleQuery sampleAddEntry 2000 favY onApiWorld)))
     = Resolved None
  /\ ReadingList.urls
       (ReadingList.manager
          (ReadingList.worldOf
             (ReadingList.add sampleQuery sampleAddEntry 2000 favY onApiWorld)))
     = ["https://x.example/"; "https://y.example/"].
Proof.
  assert (Huses : ReadingList.usesChromeAPI (ReadingList.manager onApiWorld) = true)
    by reflexivity.
  destruct (reading_api_mode_leaves_store_alone sampleQuery sampleAddEntry
              sampleRemoveEntry 2000 favY "https://x.example/" onApiWorld _
              Huses eq_refl) as (_ & Hadd & _).
  split; [exact Huses|]. split; [exact Hadd|]. reflexivity.
Defined.

Lemma reading_on_rejecting_store_witness :
  ReadingList.load sampleQuery brokenStoreWorld = ReadingList.Threw brokenStoreWorld
  /\ ReadingList.exists_ (bm_url favY) (ReadingList.manager brokenStoreWorld) = false
  /\ ReadingList.add sampleQuery sampleAddEntry 2000 favY brokenStoreWorld
     = ReadingList.Threw
         (ReadingList.mkWorld (ReadingList.mkHost None Rejected)
            (ReadingList.mkManager
               [itemX;
                ReadingList.mkItem "https://y.example/" "Y" "https://y.example/" None 2000]
               false)).
Proof.
  destruct (reading_on_rejecting_store sampleQuery sampleAddEntry sampleRemoveEntry
              2000 favY "https://x.example/" brokenStoreWorld eq_refl eq_refl eq_refl)
    as (Hload & _ & _).
  split; [exact Hload|]. split; reflexivity.
Defined.

(** ** Adding a bookmark, and swapping neighbours *)

(** X22. When the host refuses to create the bookmark, [addBookmark]
    throws and changes neither manager. When it creates it and the
    favorite box is ticked, the new id is a favorite in the end, whether
    the refresh worked and whether the reading list step returned or
    threw; with the box not ticked the favorites are as they were. *)
Theorem add_bookmark_stars_before_reading_list {Api : Type}
  (query : Api -> Settled (list ReadingList.Entry))
  (addEntry : string -> string -> Api -> Settled Api)
  localeCompare bookmarkTree now addToReading (a : App Api) :
  (forall isFav,
     addBookmark query addEntry localeCompare Rejected bookmarkTree now isFav
       addToReading a = AppThrew a)
  /\ (forall bookmark,
        isFavorite (bm_id bookmark)
          (bookmarks (appOf (addBookmark query addEntry localeCompare
                               (Resolved bookmark) bookmarkTree now true
                               addToReading a))) = true)
  /\ (forall bookmark,
        favorites
          (bookmarks (appOf (addBookmark query addEntry localeCompare
                               (Resolved bookmark) bookmarkTree now false
                               addToReading a))) = favorites (bookmarks a)).
Proof.
  assert (Hfav : favorites (loadChromeBookmarks localeCompare bookmarkTree (bookmarks a))
                 = favorites (bookmarks a)).
  { destruct bookmarkTree as [tree|]; [|done]. by rewrite loadChromeBookmarks_Some. }
  split; [|split].
  - intros isFav. unfold addBookmark. simpl. by destruct a.
  - intros bookmark. unfold addBookmark. simpl.
    assert (isFavorite (bm_id bookmark)
              (addToFavorites bookmark
                 (loadChromeBookmarks localeCompare bookmarkTree (bookmarks a)))
            = true) as Hstar.
    { apply isFavorite_true.
      destruct (decide (bm_id bookmark ∈
                  ids (favorites (loadChromeBookmarks localeCompare bookmarkTree
                                    (bookmarks a))))) as [Hin|Hout].
      - by rewrite addToFavorites_present.
      - rewrite addToFavorites_absent by done. simpl.
        rewrite ids_snoc, elem_of_app. right. by left. }
    destruct addToReading; [|done].
    by destruct (ReadingList.add query addEntry now bookmark (readingList a)).
  - intros bookmark. unfold addBookmark. simpl.
    destruct addToReading; [|done].
    by destruct (ReadingList.add query addEntry now bookmark (readingList a)).
Qed.

Lemma reorderFavorite_favorites d t m m' :
  favorites m = favorites m' ->
  favorites (reorderFavorite d t m) = favorites (reorderFavorite d t m').
Proof.
  intros Heq. unfold reorderFavorite. rewrite Heq.
  destruct (findById d (favorites m')) as [[di x]|]; [|done].
  by destruct (findById t (favorites m')) as [[ti y]|].
Qed.

Lemma findById_middle p a q :
  bm_id a ∉ ids p -> findById (bm_id a) (p ++ a :: q) = Some (length p, a).
Proof.
  intros Habs. apply findById_Some. split; [|split; [done|]].
  - by apply list_lookup_middle.
  - intros j y Hy Hj Hid. apply Habs.
    rewrite lookup_app_l in Hy by done. rewrite <- Hid.
    apply list_elem_of_fmap_2. by eapply list_elem_of_lookup_2.
Qed.

(** X23. On a list with pairwise distinct ids, dropping a card onto its
    neighbour, in either direction, swaps the two and moves nothing
    else; doing it again swaps them back. *)
Theorem reorder_swaps_neighbours p a b q m :
  NoDup (ids (p ++ a :: b :: q)) ->
  favorites (reorderFavorite (bm_id a) (bm_id b) (set_favorites (p ++ a :: b :: q) m))
  = p ++ b :: a :: q
  /\ favorites (reorderFavorite (bm_id b) (bm_id a) (set_favorites (p ++ a :: b :: q) m))
     = p ++ b :: a :: q
  /\ favorites (reorderFavorite (bm_id a) (bm_id b)
                  (reorderFavorite (bm_id a) (bm_id b)
                     (set_favorites (p ++ a :: b :: q) m)))
     = p ++ a :: b :: q.
Proof.
  intros Hnd. unfold ids in Hnd. rewrite fmap_app, !fmap_cons in Hnd.
  apply NoDup_app in Hnd as (_ & Hp & Hab).
  apply NoDup_cons in Hab as [Hab _].
  assert (Ha : bm_id a ∉ ids p).
  { intros Hin. apply (Hp _ Hin). by left. }
  assert (Hb : bm_id b ∉ ids p).
  { intros Hin. apply (Hp _ Hin). right. by left. }
  assert (Hne : bm_id a <> bm_id b).
  { intros Heq. apply Hab. rewrite Heq. by left. }
  assert (Hfa : forall x y r, bm_id x <> bm_id y -> bm_id x ∉ ids p -> bm_id y ∉ ids p ->
                  findById (bm_id y) (p ++ x :: y :: r) = Some (S (length p), y)).
  { intros x y r Hxy Hx Hy.
    replace (p ++ x :: y :: r) with ((p ++ [x]) ++ y :: r) by (by rewrite <- app_assoc).
    replace (S (length p)) with (length (p ++ [x])) by (rewrite length_app; simpl; lia).
    apply findById_middle. rewrite ids_snoc, elem_of_app, list_elem_of_singleton.
    intros [?|?]; [done|]. by apply Hxy. }
  assert (Hswap : forall x y r m', bm_id x <> bm_id y ->
                    bm_id x ∉ ids p -> bm_id y ∉ ids p ->
                    favorites (reorderFavorite (bm_id x) (bm_id y)
                                 (set_favorites (p ++ x :: y :: r) m'))
                    = p ++ y :: x :: r).
  { intros x y r m' Hxy Hx Hy.
    rewrite (reorderFavorite_found _ _ _ (length p) (S (length p)) x y);
      [|by apply findById_middle|by apply Hfa].
    simpl. unfold spliceIn, spliceOut. rewrite delete_middle.
    replace (p ++ y :: r) with ((p ++ [y]) ++ r) by (by rewrite <- app_assoc).
    rewrite take_app_length', drop_app_length' by (rewrite length_app; simpl; lia).
    by rewrite <- app_assoc. }
  assert (Hback : forall x y r m', bm_id x <> bm_id y ->
                    bm_id x ∉ ids p -> bm_id y ∉ ids p ->
                    favorites (reorderFavorite (bm_id y) (bm_id x)
                                 (set_favorites (p ++ x :: y :: r) m'))
                    = p ++ y :: x :: r).
  { intros x y r m' Hxy Hx Hy.
    rewrite (reorderFavorite_found _ _ _ (S (length p)) (length p) y x);
      [|by apply Hfa|by apply findById_middle].
    simpl. unfold spliceIn, spliceOut.
    replace (p ++ x :: y :: r) with ((p ++ [x]) ++ y :: r) by (by rewrite <- app_assoc).
    replace (S (length p)) with (length (p ++ [x])) by (rewrite length_app; simpl; lia).
    rewrite delete_middle, <- app_assoc. simpl.
    by rewrite take_app_length, drop_app_length. }
  split; [by apply Hswap|]. split; [by apply Hback|].
  rewrite (reorderFavorite_favorites (bm_id a) (bm_id b) _
             (set_favorites (p ++ b :: a :: q) m)).
  - apply Hback; auto.
  - by apply Hswap.
Qed.

Lemma reorder_swaps_neighbours_witness :
  NoDup (ids ([favX] ++ favY :: favZ :: []))
  /\ favorites (reorderFavorite "32" "33" xyz) = [favX; favZ; favY]
  /\ favorites (reorderFavorite "33" "32" xyz) = [favX; favZ; favY]
  /\ favorites (reorderFavorite "32" "33" (reorderFavorite "32" "33" xyz))
     = [favX; favY; favZ].
Proof.
  assert (Hnd : NoDup (ids ([favX] ++ favY :: favZ :: []))).
  { exact (bool_decide_unpack (NoDup (ids ([favX] ++ favY :: favZ :: []))) I). }
  split; [exact Hnd|].
  exact (reorder_swaps_neighbours [favX] favY favZ [] xyz Hnd).
Defined.
